(** * SQLiteQueueManager (src/sqlite-queue.js): a shallow embedding

    The queue manager is a thin asynchronous wrapper around one SQLite
    table, [message_queue].  The embedding has three layers:

    - [Json]: the payload values and [JSON.stringify], which
      [addMessageToQueue] applies before binding the payload;
    - the SQLite engine restricted to the seven statements the manager
      issues, acting on the content of one database file;
    - the manager itself: the fields [brokerId], [db], [dbInitialized] and
      the eight methods, each one a function from the state before the call
      to the settled promise and the state after it.

    Each asynchronous method is run to completion: a call is one step. *)

From Stdlib Require Import ZArith List String Ascii Bool Lia Sorted.
From Stdlib Require Import Decimal DecimalString DecimalZ DecimalPos DecimalFacts.
Import ListNotations.
Open Scope string_scope.
Open Scope Z_scope.

(* ================================================================= *)
(** ** JSON payloads *)

Module Json.

(** A JSON-compatible JavaScript value.  Strings are sequences of code
    units below 256; numbers are the integer-valued ones (a fractional
    double has no counterpart here); an object is the list of its own
    enumerable properties in property order. *)
#[local] Unset Elimination Schemes.
Inductive json : Type :=
| JNull
| JBool (b : bool)
| JNum (z : Z)
| JStr (s : string)
| JArr (elements : list json)
| JObj (members : list (string * json)).
#[local] Set Elimination Schemes.

(** Number.MAX_SAFE_INTEGER: the integers a double holds exactly. *)
Definition MAX_SAFE_INTEGER : Z := 9007199254740991.

Definition digit_char (k : nat) : ascii :=
  match k with
  | 0%nat => "0" | 1%nat => "1" | 2%nat => "2" | 3%nat => "3"
  | 4%nat => "4" | 5%nat => "5" | 6%nat => "6" | 7%nat => "7"
  | 8%nat => "8" | 9%nat => "9" | 10%nat => "a" | 11%nat => "b"
  | 12%nat => "c" | 13%nat => "d" | 14%nat => "e" | _ => "f"
  end%char.

(** QuoteJSONString, one code unit: the short escapes, [\u00xx] in
    lowercase hexadecimal for the other control characters, everything
    else literally. *)
Definition escape_char (c : ascii) : string :=
  let n := nat_of_ascii c in
  if (n =? 8)%nat then "\b"
  else if (n =? 9)%nat then "\t"
  else if (n =? 10)%nat then "\n"
  else if (n =? 12)%nat then "\f"
  else if (n =? 13)%nat then "\r"
  else if (n =? 34)%nat then String "\" (String "034" EmptyString)
  else if (n =? 92)%nat then "\\"
  else if (n <? 32)%nat then
    String "\" (String "u" (String "0" (String "0"
      (String (digit_char (n / 16)) (String (digit_char (n mod 16)) EmptyString)))))
  else String c EmptyString.

Fixpoint escape (s : string) : string :=
  match s with
  | EmptyString => EmptyString
  | String c s' => escape_char c ++ escape s'
  end.

Definition quote (s : string) : string :=
  String "034" (escape s ++ String "034" EmptyString).

(** Number::toString for an integer-valued number: the decimal digits,
    with a leading minus sign for a negative one. *)
Definition number_to_string (z : Z) : string :=
  NilZero.string_of_int (Z.to_int z).

(** JSON.stringify(value) with no replacer and no indentation. *)
Fixpoint stringify (v : json) : string :=
  match v with
  | JNull => "null"
  | JBool true => "true"
  | JBool false => "false"
  | JNum z => number_to_string z
  | JStr s => quote s
  | JArr vs =>
      String "["
        ((fix elems (l : list json) : string :=
            match l with
            | [] => "]"
            | v :: l' =>
                stringify v ++
                match l' with
                | [] => "]"
                | _ :: _ => String "," (elems l')
                end
            end) vs)
  | JObj ms =>
      String "{"
        ((fix membs (l : list (string * json)) : string :=
            match l with
            | [] => "}"
            | (k, v) :: l' =>
                quote k ++ String ":" (stringify v ++
                match l' with
                | [] => "}"
                | _ :: _ => String "," (membs l')
                end)
            end) ms)
  end.

(** *** Reading the text back

    The manager hands out the payload column as text; the functions below
    read such a text back into a value. *)

Definition is_ws (c : ascii) : bool :=
  let n := nat_of_ascii c in
  ((n =? 32) || (n =? 9) || (n =? 10) || (n =? 13))%nat.

Fixpoint skip_ws (s : string) : string :=
  match s with
  | EmptyString => EmptyString
  | String c s' => if is_ws c then skip_ws s' else s
  end.

Definition hex_value (c : ascii) : option nat :=
  let n := nat_of_ascii c in
  if ((48 <=? n) && (n <=? 57))%nat then Some (n - 48)%nat
  else if ((97 <=? n) && (n <=? 102))%nat then Some (n - 87)%nat
  else if ((65 <=? n) && (n <=? 70))%nat then Some (n - 55)%nat
  else None.

Definition hex4 (a b c d : ascii) : option nat :=
  match hex_value a, hex_value b, hex_value c, hex_value d with
  | Some x, Some y, Some z, Some t => Some (((x * 16 + y) * 16 + z) * 16 + t)%nat
  | _, _, _, _ => None
  end.

Definition cons_char (c : ascii) (r : option (string * string))
    : option (string * string) :=
  match r with
  | Some (s, rest) => Some (String c s, rest)
  | None => None
  end.

(** The characters of a string literal, after its opening quote, up to and
    including the closing one. *)
Fixpoint parse_chars (s : string) : option (string * string) :=
  match s with
  | EmptyString => None
  | String c s1 =>
      if (c =? "034")%char then Some (EmptyString, s1)
      else if (c =? "\")%char then
        match s1 with
        | EmptyString => None
        | String d s2 =>
            if (d =? "034")%char then cons_char "034" (parse_chars s2)
            else if (d =? "\")%char then cons_char "\" (parse_chars s2)
            else if (d =? "/")%char then cons_char "/" (parse_chars s2)
            else if (d =? "b")%char then cons_char (ascii_of_nat 8) (parse_chars s2)
            else if (d =? "f")%char then cons_char (ascii_of_nat 12) (parse_chars s2)
            else if (d =? "n")%char then cons_char (ascii_of_nat 10) (parse_chars s2)
            else if (d =? "r")%char then cons_char (ascii_of_nat 13) (parse_chars s2)
            else if (d =? "t")%char then cons_char (ascii_of_nat 9) (parse_chars s2)
            else if (d =? "u")%char then
              match s2 with
              | String h1 (String h2 (String h3 (String h4 s3))) =>
                  match hex4 h1 h2 h3 h4 with
                  | Some n =>
                      if (n <? 256)%nat
                      then cons_char (ascii_of_nat n) (parse_chars s3)
                      else None
                  | None => None
                  end
              | _ => None
              end
            else None
        end
      else if (nat_of_ascii c <? 32)%nat then None
      else cons_char c (parse_chars s1)
  end.

Definition digit_of (c : ascii) : option (uint -> uint) :=
  if (c =? "0")%char then Some D0 else if (c =? "1")%char then Some D1
  else if (c =? "2")%char then Some D2 else if (c =? "3")%char then Some D3
  else if (c =? "4")%char then Some D4 else if (c =? "5")%char then Some D5
  else if (c =? "6")%char then Some D6 else if (c =? "7")%char then Some D7
  else if (c =? "8")%char then Some D8 else if (c =? "9")%char then Some D9
  else None.

Fixpoint scan_digits (s : string) : uint * string :=
  match s with
  | EmptyString => (Nil, EmptyString)
  | String c s' =>
      match digit_of c with
      | Some d => let (u, rest) := scan_digits s' in (d u, rest)
      | None => (Nil, s)
      end
  end.

Definition starts_fraction (s : string) : bool :=
  match s with
  | String c _ => ((c =? ".") || (c =? "e") || (c =? "E"))%char
  | EmptyString => false
  end.

Definition leading_zero (u : uint) : bool :=
  match u with
  | D0 Nil => false
  | D0 _ => true
  | _ => false
  end.

(** The digits of a number: at least one, no leading zero before another
    digit.  A fraction or an exponent is outside the integers. *)
Definition parse_digits (s : string) : option (uint * string) :=
  let (u, rest) := scan_digits s in
  match u with
  | Nil => None
  | _ =>
      if leading_zero u then None
      else if starts_fraction rest then None
      else Some (u, rest)
  end.

Definition parse_number (s : string) : option (json * string) :=
  match s with
  | String c s' =>
      if (c =? "-")%char then
        match parse_digits s' with
        | Some (u, rest) => Some (JNum (Z.of_int (Neg u)), rest)
        | None => None
        end
      else
        match parse_digits s with
        | Some (u, rest) => Some (JNum (Z.of_int (Pos u)), rest)
        | None => None
        end
  | EmptyString => None
  end.

Fixpoint strip_prefix (p s : string) : option string :=
  match p, s with
  | EmptyString, _ => Some s
  | String a p', String b s' => if (a =? b)%char then strip_prefix p' s' else None
  | String _ _, EmptyString => None
  end.

Fixpoint lookup (k : string) (ms : list (string * json)) : option json :=
  match ms with
  | [] => None
  | (k', v) :: ms' => if String.eqb k k' then Some v else lookup k ms'
  end.

Fixpoint remove_key (k : string) (ms : list (string * json)) : list (string * json) :=
  match ms with
  | [] => []
  | (k', v) :: ms' =>
      if String.eqb k k' then remove_key k ms' else (k', v) :: remove_key k ms'
  end.

(** A member in front of the members that follow it in the text: a later
    member of the same name overrides the value and the property keeps its
    first place. *)
Definition define_property (k : string) (v : json) (ms : list (string * json))
    : list (string * json) :=
  match lookup k ms with
  | Some v' => (k, v') :: remove_key k ms
  | None => (k, v) :: ms
  end.

Fixpoint parse_value (fuel : nat) (s : string) : option (json * string) :=
  match fuel with
  | O => None
  | S n =>
      match skip_ws s with
      | EmptyString => None
      | String c s1 =>
          if (c =? "n")%char then
            match strip_prefix "ull" s1 with
            | Some r => Some (JNull, r) | None => None end
          else if (c =? "t")%char then
            match strip_prefix "rue" s1 with
            | Some r => Some (JBool true, r) | None => None end
          else if (c =? "f")%char then
            match strip_prefix "alse" s1 with
            | Some r => Some (JBool false, r) | None => None end
          else if (c =? "034")%char then
            match parse_chars s1 with
            | Some (str, r) => Some (JStr str, r) | None => None end
          else if (c =? "[")%char then
            match skip_ws s1 with
            | EmptyString => None
            | String d r =>
                if (d =? "]")%char then Some (JArr [], r)
                else
                  match parse_elements n s1 with
                  | Some (vs, r') => Some (JArr vs, r') | None => None end
            end
          else if (c =? "{")%char then
            match skip_ws s1 with
            | EmptyString => None
            | String d r =>
                if (d =? "}")%char then Some (JObj [], r)
                else
                  match parse_members n s1 with
                  | Some (ms, r') => Some (JObj ms, r') | None => None end
            end
          else parse_number (String c s1)
      end
  end
with parse_elements (fuel : nat) (s : string) : option (list json * string) :=
  match fuel with
  | O => None
  | S n =>
      match parse_value n s with
      | None => None
      | Some (v, r) =>
          match skip_ws r with
          | EmptyString => None
          | String c r' =>
              if (c =? ",")%char then
                match parse_elements n r' with
                | Some (vs, r'') => Some (v :: vs, r'') | None => None end
              else if (c =? "]")%char then Some ([v], r')
              else None
          end
      end
  end
with parse_members (fuel : nat) (s : string)
    : option (list (string * json) * string) :=
  match fuel with
  | O => None
  | S n =>
      match skip_ws s with
      | EmptyString => None
      | String c s1 =>
          if (c =? "034")%char then
            match parse_chars s1 with
            | None => None
            | Some (k, r) =>
                match skip_ws r with
                | EmptyString => None
                | String d r1 =>
                    if (d =? ":")%char then
                      match parse_value n r1 with
                      | None => None
                      | Some (v, r2) =>
                          match skip_ws r2 with
                          | EmptyString => None
                          | String c2 r3 =>
                              if (c2 =? ",")%char then
                                match parse_members n r3 with
                                | Some (ms, r4) =>
                                    Some (define_property k v ms, r4)
                                | None => None
                                end
                              else if (c2 =? "}")%char then Some ([(k, v)], r3)
                              else None
                          end
                      end
                    else None
                end
            end
          else None
      end
  end.

(** Modelled from the spec: the decoding of a stored payload, which the
    manager leaves to its caller; the spec asks that the stored text give
    the payload back without loss.  This is JSON.parse(text) on the part of
    JSON this file has values for: one value, with nothing but white space
    after it. *)
Definition JSON_parse (text : string) : option json :=
  match parse_value (S (String.length text)) text with
  | Some (v, rest) =>
      match skip_ws rest with
      | EmptyString => Some v
      | String _ _ => None
      end
  | None => None
  end.

(** The values the round trip is claimed for: numbers within the safe
    integers, property names distinct within an object. *)
Fixpoint distinct (ks : list string) : bool :=
  match ks with
  | [] => true
  | k :: ks' => negb (existsb (String.eqb k) ks') && distinct ks'
  end.

Fixpoint json_compatible (v : json) : bool :=
  match v with
  | JNull | JBool _ | JStr _ => true
  | JNum z => (- MAX_SAFE_INTEGER <=? z) && (z <=? MAX_SAFE_INTEGER)
  | JArr vs => forallb json_compatible vs
  | JObj ms =>
      distinct (map fst ms) && forallb (fun kv => json_compatible (snd kv)) ms
  end.

(** The elements of an array and the members of an object as
    [stringify] prints them, closing bracket included. *)
Fixpoint stringify_elements (l : list json) : string :=
  match l with
  | [] => "]"
  | v :: l' =>
      stringify v ++
      match l' with
      | [] => "]"
      | _ :: _ => String "," (stringify_elements l')
      end
  end.

Fixpoint stringify_members (l : list (string * json)) : string :=
  match l with
  | [] => "}"
  | (k, v) :: l' =>
      quote k ++ String ":" (stringify v ++
      match l' with
      | [] => "}"
      | _ :: _ => String "," (stringify_members l')
      end)
  end.

(** The recursion depth the parser needs for a value. *)
Fixpoint size (v : json) : nat :=
  match v with
  | JArr vs => S (S (fold_right (fun x n => (size x + n)%nat) O vs))
  | JObj ms => S (S (fold_right (fun kv n => (size (snd kv) + n)%nat) O ms))
  | _ => 1%nat
  end.

(** What can follow a value in a text: nothing, a comma or a closing
    bracket. *)
Definition delimited (rest : string) : bool :=
  match rest with
  | EmptyString => true
  | String c _ => ((c =? ",") || (c =? "]") || (c =? "}"))%char
  end.

End Json.
Import Json.

(** Induction on a value with the elements of an array and the members of
    an object as induction hypotheses. *)
Section JsonInduction.

Variable P : json -> Prop.
Hypothesis Pnull : P JNull.
Hypothesis Pbool : forall b, P (JBool b).
Hypothesis Pnum : forall z, P (JNum z).
Hypothesis Pstr : forall s, P (JStr s).
Hypothesis Parr : forall vs, Forall P vs -> P (JArr vs).
Hypothesis Pobj : forall ms, Forall (fun kv => P (snd kv)) ms -> P (JObj ms).

Fixpoint json_induction (v : json) : P v :=
  match v with
  | JNull => Pnull
  | JBool b => Pbool b
  | JNum z => Pnum z
  | JStr s => Pstr s
  | JArr vs =>
      Parr vs
        ((fix all (l : list json) : Forall P l :=
            match l with
            | [] => Forall_nil P
            | x :: l' => Forall_cons x (json_induction x) (all l')
            end) vs)
  | JObj ms =>
      Pobj ms
        ((fix all (l : list (string * json))
            : Forall (fun kv => P (snd kv)) l :=
            match l with
            | [] => Forall_nil _
            | kv :: l' =>
                Forall_cons (P:=fun kv => P (snd kv)) kv
                  (json_induction (snd kv)) (all l')
            end) ms)
  end.

End JsonInduction.

(* ================================================================= *)
(** ** The SQLite engine, as far as the manager uses it *)

(** One row of [message_queue].  [col_id] is the INTEGER PRIMARY KEY, the
    rowid the table's B-tree is keyed by. *)
Record row := {
  col_id : Z;
  col_topic : string;
  col_payload : string;
  col_qos : Z;
  col_retain : Z;
  col_timestamp : string
}.

(** The content of one database file: whether [message_queue] exists, its
    rows in B-tree (rowid) order, and the table's entry in
    [sqlite_sequence], the largest rowid AUTOINCREMENT has handed out. *)
Record db_file := {
  has_table : bool;
  rows : list row;
  sequence : Z
}.

Definition empty_file : db_file :=
  {| has_table := false; rows := []; sequence := 0 |}.

Inductive sqlite_code :=
| SQLITE_ERROR        (* no such table: message_queue *)
| SQLITE_BUSY
| SQLITE_READONLY
| SQLITE_IOERR
| SQLITE_CORRUPT
| SQLITE_FULL
| SQLITE_CANTOPEN
| SQLITE_CONSTRAINT   (* NOT NULL constraint failed *)
| SQLITE_MISUSE       (* the handle is not open *)
| SQLITE_NOTADB
| SQLITE_RANGE
| SQLITE_MISMATCH.    (* datatype mismatch: a LIMIT that is no 64-bit integer *)

(** The largest rowid, 2^63 - 1. *)
Definition MAX_ROWID : Z := 9223372036854775807.

(** The result of running one statement: an error code, or a value and the
    file after it. *)
Definition outcome (A : Type) : Type := (sqlite_code + A * db_file)%type.

(** The largest rowid in the table, 0 for an empty one. *)
Definition max_rowid (rs : list row) : Z :=
  fold_right (fun r m => Z.max (col_id r) m) 0 rs.

(** SELECT MIN(id) FROM message_queue: NULL on an empty table. *)
Fixpoint min_id (rs : list row) : option Z :=
  match rs with
  | [] => None
  | r :: rs' =>
      match min_id rs' with
      | None => Some (col_id r)
      | Some m => Some (Z.min (col_id r) m)
      end
  end.

(** The B-tree keeps the rows in rowid order: a new row goes before the
    first row with a larger rowid. *)
Fixpoint btree_insert (r : row) (rs : list row) : list row :=
  match rs with
  | [] => [r]
  | r' :: rs' =>
      if col_id r <? col_id r' then r :: r' :: rs'
      else r' :: btree_insert r rs'
  end.

(** CREATE TABLE IF NOT EXISTS message_queue (...) *)
Definition sql_create_table (f : db_file) : outcome unit :=
  inr (tt, if has_table f then f
           else {| has_table := true; rows := []; sequence := 0 |}).

(** SELECT COUNT( * ) as count FROM message_queue *)
Definition sql_count (f : db_file) : outcome Z :=
  if has_table f then inr (Z.of_nat (List.length (rows f)), f)
  else inl SQLITE_ERROR.

(** INSERT INTO message_queue (topic, payload, qos, retain) VALUES (?,?,?,?).
    A bound NULL is [None]; topic and payload are declared NOT NULL.  The
    rowid is one more than the larger of the table's largest rowid and its
    sqlite_sequence entry; when that is already the largest rowid there
    is, the insert fails with SQLITE_FULL.  The timestamp column takes its
    default, the engine's clock. *)
Definition sql_insert (now : string) (topic payload : option string)
    (qos retain : Z) (f : db_file) : outcome Z :=
  if has_table f then
    match topic, payload with
    | Some t, Some p =>
        let top := Z.max (sequence f) (max_rowid (rows f)) in
        if MAX_ROWID <=? top then inl SQLITE_FULL
        else
          let r := {| col_id := top + 1; col_topic := t; col_payload := p;
                      col_qos := qos; col_retain := retain;
                      col_timestamp := now |} in
          inr (top + 1,
               {| has_table := true; rows := btree_insert r (rows f);
                  sequence := top + 1 |})
    | _, _ => inl SQLITE_CONSTRAINT
    end
  else inl SQLITE_ERROR.

(** DELETE FROM message_queue WHERE id = (SELECT MIN(id) FROM message_queue).
    On an empty table the subquery is NULL and no row compares equal. *)
Definition sql_delete_min (f : db_file) : outcome unit :=
  if has_table f then
    inr (tt,
         {| has_table := true;
            rows := match min_id (rows f) with
                    | None => rows f
                    | Some m => filter (fun r => negb (col_id r =? m)) (rows f)
                    end;
            sequence := sequence f |})
  else inl SQLITE_ERROR.

(** LIMIT n over a scan, for an n the engine takes: a negative n is no
    limit. *)
Definition sql_limit {A : Type} (n : Z) (l : list A) : list A :=
  if n <? 0 then l else firstn (Z.to_nat n) l.

(** The limits the engine takes: the bound number must be an integer
    strictly between -2^63 and 2^63; any other is a datatype mismatch. *)
Definition limit_accepted (n : Z) : bool :=
  (- 9223372036854775808 <? n) && (n <? 9223372036854775808).

(** SELECT * FROM message_queue LIMIT ?: with no ORDER BY and no index
    other than the rowid B-tree, a scan of the table in rowid order.  The
    statement is prepared first (no such table), the limit is looked at
    when it runs. *)
Definition sql_select_limit (limit : Z) (f : db_file) : outcome (list row) :=
  if has_table f then
    if limit_accepted limit then inr (sql_limit limit (rows f), f)
    else inl SQLITE_MISMATCH
  else inl SQLITE_ERROR.

Definition mem_id (i : Z) (ids : list Z) : bool :=
  existsb (fun j => i =? j) ids.

(** SQLITE_MAX_VARIABLE_NUMBER of the bundled engine: the most parameters
    one statement may have. *)
Definition SQLITE_MAX_VARIABLE_NUMBER : Z := 32766.

(** DELETE FROM message_queue WHERE id IN (?,...,?), with one parameter
    for each identifier: with more parameters than the engine allows the
    statement is not prepared (too many SQL variables). *)
Definition sql_delete_in (ids : list Z) (f : db_file) : outcome unit :=
  if SQLITE_MAX_VARIABLE_NUMBER <? Z.of_nat (List.length ids)
  then inl SQLITE_ERROR
  else if has_table f then
    inr (tt,
         {| has_table := true;
            rows := filter (fun r => negb (mem_id (col_id r) ids)) (rows f);
            sequence := sequence f |})
  else inl SQLITE_ERROR.

(** DELETE FROM message_queue WHERE id = ? *)
Definition sql_delete_id (i : Z) (f : db_file) : outcome unit :=
  if has_table f then
    inr (tt,
         {| has_table := true;
            rows := filter (fun r => negb (col_id r =? i)) (rows f);
            sequence := sequence f |})
  else inl SQLITE_ERROR.

(** The statements the manager prepares, with their bound parameters. *)
Inductive statement :=
| CREATE_TABLE_IF_NOT_EXISTS
| SELECT_COUNT
| INSERT_INTO (topic payload : option string) (qos retain : Z)
| DELETE_MIN
| SELECT_LIMIT (limit : Z)
| DELETE_IN (ids : list Z)
| DELETE_ID (i : Z).

(** What the engine hands back: the count, the rows, the rowid of the
    inserted row ([lastID]), or nothing. *)
Definition result_of (q : statement) : Type :=
  match q with
  | SELECT_COUNT => Z
  | SELECT_LIMIT _ => list row
  | INSERT_INTO _ _ _ _ => Z
  | _ => unit
  end.

Definition exec (now : string) (q : statement) : db_file -> outcome (result_of q) :=
  match q as q0 return db_file -> outcome (result_of q0) with
  | CREATE_TABLE_IF_NOT_EXISTS => sql_create_table
  | SELECT_COUNT => sql_count
  | INSERT_INTO t p qos retain => sql_insert now t p qos retain
  | DELETE_MIN => sql_delete_min
  | SELECT_LIMIT n => sql_select_limit n
  | DELETE_IN ids => sql_delete_in ids
  | DELETE_ID i => sql_delete_id i
  end.

(* ================================================================= *)
(** ** The process and its surroundings *)

(** A [sqlite3.Database] object: the file it was created for and whether
    the open succeeded. *)
Record Database := {
  filename : string;
  is_open : bool
}.

(** The fields of a SQLiteQueueManager; [db = None] is [this.db === null]. *)
Record SQLiteQueueManager := {
  brokerId : string;
  db : option Database;
  dbInitialized : bool
}.

(** Calls that leave the process. *)
Inductive call :=
| fs_existsSync (p : string)
| fs_mkdirSync (p : string)
| Database_new (p : string)
| Database_query (q : statement)
| Database_close.

(** What outlives the manager: the working directory, whether its [data]
    directory exists, the database files by path, and the calls made so
    far, the latest first. *)
Record world := {
  cwd : string;
  data_dir : bool;
  files : string -> option db_file;
  log : list call
}.

(** What a call meets outside the program: whether creating the directory
    or opening the file fails, whether the engine fails the statement (or
    the close) for a reason of its own (I/O, locking), and the engine's
    clock. *)
Record env := {
  mkdir_fails : bool;
  open_fails : option sqlite_code;
  fault : option sqlite_code;
  now : string
}.

Inductive error :=
| Database_not_initialized      (* new Error("Database not initialized") *)
| SqliteError (c : sqlite_code)  (* the err a sqlite3 callback receives *)
| FsError.                       (* thrown by fs.mkdirSync *)

(** A settled promise. *)
Inductive promise (A : Type) :=
| Resolved (a : A)
| Rejected (e : error).
Arguments Resolved {A} a.
Arguments Rejected {A} e.

Definition async (A : Type) : Type := (promise A * SQLiteQueueManager * world)%type.

Definition logged (c : call) (w : world) : world :=
  {| cwd := cwd w; data_dir := data_dir w; files := files w;
     log := c :: log w |}.

Definition write_file (p : string) (f : db_file) (w : world) : world :=
  {| cwd := cwd w; data_dir := data_dir w;
     files := fun p' => if String.eqb p' p then Some f else files w p';
     log := log w |}.

Definition make_dir (w : world) : world :=
  {| cwd := cwd w; data_dir := true; files := files w; log := log w |}.

Definition set_db (d : option Database) (m : SQLiteQueueManager) : SQLiteQueueManager :=
  {| brokerId := brokerId m; db := d; dbInitialized := dbInitialized m |}.

Definition set_dbInitialized (b : bool) (m : SQLiteQueueManager) : SQLiteQueueManager :=
  {| brokerId := brokerId m; db := db m; dbInitialized := b |}.

Definition path_join (a b : string) : string := a ++ "/" ++ b.

(** path.join(dataDir, `mqtt-sparkplug-queue-${this.brokerId}.db`) *)
Definition dbPath (w : world) (m : SQLiteQueueManager) : string :=
  path_join (path_join (cwd w) "data")
            ("mqtt-sparkplug-queue-" ++ brokerId m ++ ".db").

(** [db.run], [db.get] and [db.all]: the statement runs to completion and
    the callback receives an error or the result. *)
Definition query (e : env) (h : Database) (q : statement) (w : world)
    : promise (result_of q) * world :=
  let w1 := logged (Database_query q) w in
  if is_open h then
    match fault e with
    | Some c => (Rejected (SqliteError c), w1)
    | None =>
        match files w (filename h) with
        | None => (Rejected (SqliteError SQLITE_IOERR), w1)
        | Some f =>
            match exec (now e) q f with
            | inl c => (Rejected (SqliteError c), w1)
            | inr (a, f') => (Resolved a, write_file (filename h) f' w1)
            end
        end
    end
  else (Rejected (SqliteError SQLITE_MISUSE), w1).

(* ================================================================= *)
(** ** class SQLiteQueueManager *)

Definition SQLiteQueueManager_constructor (brokerId : string) : SQLiteQueueManager :=
  {| brokerId := brokerId; db := None; dbInitialized := false |}.

Definition initializeDatabase (e : env) (m : SQLiteQueueManager) (w : world)
    : async Database :=
  match dbInitialized m, db m with
  | true, Some h => (Resolved h, m, w)
  | _, _ =>
      let dataDir := path_join (cwd w) "data" in
      let w1 := logged (fs_existsSync dataDir) w in
      let made :=
        if data_dir w1 then Some w1
        else if mkdir_fails e then None
        else Some (make_dir (logged (fs_mkdirSync dataDir) w1)) in
      match made with
      | None => (Rejected FsError, m, logged (fs_mkdirSync dataDir) w1)
      | Some w2 =>
          let p := dbPath w m in
          let w3 := logged (Database_new p) w2 in
          match open_fails e with
          | Some c =>
              (Rejected (SqliteError c),
               set_db (Some {| filename := p; is_open := false |}) m, w3)
          | None =>
              let h := {| filename := p; is_open := true |} in
              let m1 := set_db (Some h) m in
              let w4 :=
                match files w3 p with
                | Some _ => w3
                | None => write_file p empty_file w3
                end in
              match query e h CREATE_TABLE_IF_NOT_EXISTS w4 with
              | (Rejected err, w5) => (Rejected err, m1, w5)
              | (Resolved _, w5) =>
                  (Resolved h, set_dbInitialized true m1, w5)
              end
          end
      end
  end.

Definition getQueueLength (e : env) (m : SQLiteQueueManager) (w : world)
    : async Z :=
  match db m with
  | None => (Resolved 0, m, w)
  | Some h =>
      match query e h SELECT_COUNT w with
      | (Rejected err, w') => (Rejected err, m, w')
      | (Resolved count, w') => (Resolved count, m, w')
      end
  end.

(** [qos] and [retain] are [None] when the caller leaves them out; the
    defaults are 0 and false. *)
Definition addMessageToQueue (e : env) (topic : string) (payload : json)
    (qos : option Z) (retain : option bool)
    (m : SQLiteQueueManager) (w : world) : async unit :=
  match db m with
  | None => (Rejected Database_not_initialized, m, w)
  | Some h =>
      let qos := match qos with Some q => q | None => 0 end in
      let retain := match retain with Some b => b | None => false end in
      let payloadStr := stringify payload in
      match query e h
              (INSERT_INTO (Some topic) (Some payloadStr) qos
                           (if retain then 1 else 0)) w with
      | (Rejected err, w') => (Rejected err, m, w')
      | (Resolved _, w') => (Resolved tt, m, w')
      end
  end.

Definition removeOldestMessage (e : env) (m : SQLiteQueueManager) (w : world)
    : async unit :=
  match db m with
  | None => (Rejected Database_not_initialized, m, w)
  | Some h =>
      match query e h DELETE_MIN w with
      | (Rejected err, w') => (Rejected err, m, w')
      | (Resolved _, w') => (Resolved tt, m, w')
      end
  end.

(** [limit] is [None] when the caller leaves it out; the default is 500. *)
Definition getMessagesFromQueue (e : env) (limit : option Z)
    (m : SQLiteQueueManager) (w : world) : async (list row) :=
  match db m with
  | None => (Resolved [], m, w)
  | Some h =>
      let limit := match limit with Some n => n | None => 500 end in
      match query e h (SELECT_LIMIT limit) w with
      | (Rejected err, w') => (Rejected err, m, w')
      | (Resolved rows, w') => (Resolved rows, m, w')
      end
  end.

Definition removeMessagesFromQueue (e : env) (messageIds : list Z)
    (m : SQLiteQueueManager) (w : world) : async unit :=
  match db m, messageIds with
  | None, _ | _, [] => (Resolved tt, m, w)
  | Some h, _ :: _ =>
      match query e h (DELETE_IN messageIds) w with
      | (Rejected err, w') => (Rejected err, m, w')
      | (Resolved _, w') => (Resolved tt, m, w')
      end
  end.

Definition removeMessageFromQueue (e : env) (messageId : Z)
    (m : SQLiteQueueManager) (w : world) : async unit :=
  match db m with
  | None => (Rejected Database_not_initialized, m, w)
  | Some h =>
      match query e h (DELETE_ID messageId) w with
      | (Rejected err, w') => (Rejected err, m, w')
      | (Resolved _, w') => (Resolved tt, m, w')
      end
  end.

Definition closeDatabase (e : env) (m : SQLiteQueueManager) (w : world)
    : async unit :=
  match db m with
  | None => (Resolved tt, m, w)
  | Some h =>
      let w1 := logged Database_close w in
      if is_open h then
        match fault e with
        | Some c => (Rejected (SqliteError c), m, w1)
        | None => (Resolved tt, set_dbInitialized false (set_db None m), w1)
        end
      else (Rejected (SqliteError SQLITE_MISUSE), m, w1)
  end.

(* ================================================================= *)
(** ** Runs of a store *)

(** One call of a caller, under the spec's names for the operations. *)
Inductive request :=
| Initialize
| Length
| Enqueue (topic : string) (payload : json) (qos : option Z) (retain : option bool)
| RemoveOldest
| ListUpTo (limit : option Z)
| RemoveByIds (ids : list Z)
| RemoveById (i : Z)
| Close.

Inductive response :=
| Handle (p : promise Database)
| Count (p : promise Z)
| Messages (p : promise (list row))
| Done (p : promise unit).

Definition step (e : env) (r : request) (m : SQLiteQueueManager) (w : world)
    : response * SQLiteQueueManager * world :=
  match r with
  | Initialize => let '(p, m', w') := initializeDatabase e m w in (Handle p, m', w')
  | Length => let '(p, m', w') := getQueueLength e m w in (Count p, m', w')
  | Enqueue t pl q rt =>
      let '(p, m', w') := addMessageToQueue e t pl q rt m w in (Done p, m', w')
  | RemoveOldest => let '(p, m', w') := removeOldestMessage e m w in (Done p, m', w')
  | ListUpTo n => let '(p, m', w') := getMessagesFromQueue e n m w in (Messages p, m', w')
  | RemoveByIds ids =>
      let '(p, m', w') := removeMessagesFromQueue e ids m w in (Done p, m', w')
  | RemoveById i => let '(p, m', w') := removeMessageFromQueue e i m w in (Done p, m', w')
  | Close => let '(p, m', w') := closeDatabase e m w in (Done p, m', w')
  end.

Fixpoint run (calls : list (env * request)) (m : SQLiteQueueManager) (w : world)
    : SQLiteQueueManager * world :=
  match calls with
  | [] => (m, w)
  | (e, r) :: rest => let '(_, m', w') := step e r m w in run rest m' w'
  end.

(** The pending messages of the store: the rows of the table in the
    broker's file, none when the file or the table is not there. *)
Definition pending (m : SQLiteQueueManager) (w : world) : list row :=
  match files w (dbPath w m) with
  | Some f => rows f
  | None => []
  end.

(** The identifiers a call assigned: those of the rows pending after it
    that were not pending before. *)
Definition fresh_ids (before after : list row) : list Z :=
  map col_id
    (filter (fun r => negb (mem_id (col_id r) (map col_id before))) after).

(** The identifiers assigned along a run, in the order of the calls. *)
Fixpoint assigned_ids (calls : list (env * request)) (m : SQLiteQueueManager)
    (w : world) : list Z :=
  match calls with
  | [] => []
  | (e, r) :: rest =>
      let '(_, m', w') := step e r m w in
      (fresh_ids (pending m w) (pending m' w') ++ assigned_ids rest m' w')%list
  end.

(** A new manager in a process whose [data] directory holds no file yet. *)
Definition no_files : string -> option db_file := fun _ => None.

Definition new_world (cwd : string) : world :=
  {| cwd := cwd; data_dir := false; files := no_files; log := [] |}.

(** An environment in which nothing outside the program fails. *)
Definition calm (now : string) : env :=
  {| mkdir_fails := false; open_fails := None; fault := None; now := now |}.

(** *** The invariant of a store *)

Fixpoint ascending (l : list Z) : bool :=
  match l with
  | [] => true
  | x :: l' =>
      match l' with
      | [] => true
      | y :: _ => (x <? y) && ascending l'
      end
  end.

(** A file the engine can have written: rowids ascending, positive and
    not above the sqlite_sequence entry, which is itself a rowid; no rows
    and no sequence without the table. *)
Definition wf_file (f : db_file) : bool :=
  ascending (map col_id (rows f))
  && forallb (fun r => (1 <=? col_id r) && (col_id r <=? sequence f)) (rows f)
  && (0 <=? sequence f) && (sequence f <=? MAX_ROWID)
  && (has_table f || (match rows f with [] => true | _ => false end
                      && (sequence f =? 0))).

(** The manager and its file agree: a handle names the broker's file, an
    open handle has its file, and [dbInitialized] is set only with an open
    handle on a file that has the table. *)
Definition wf (m : SQLiteQueueManager) (w : world) : bool :=
  match files w (dbPath w m) with
  | Some f => wf_file f
  | None => true
  end
  && match db m with
     | Some h =>
         String.eqb (filename h) (dbPath w m)
         && (negb (is_open h)
             || match files w (dbPath w m) with Some _ => true | None => false end)
         && (negb (dbInitialized m)
             || (is_open h
                 && match files w (dbPath w m) with
                    | Some f => has_table f
                    | None => false
                    end))
     | None => negb (dbInitialized m)
     end.

(** The store of the spec's state machine is Initialized. *)
Definition initialized (m : SQLiteQueueManager) : bool :=
  dbInitialized m && match db m with Some _ => true | None => false end.

(** The file a successful open leaves at the handle's path. *)
Definition opened_file (w : world) (p : string) : db_file :=
  match files w p with
  | Some f => f
  | None => empty_file
  end.

(** How one call moves the broker's file: not at all, by opening it, by
    opening it and creating the table, or by one statement. *)
Inductive file_step (now : string) (o : option db_file) : option db_file -> Prop :=
| file_same : file_step now o o
| file_opened :
    file_step now o (Some (match o with Some f => f | None => empty_file end))
| file_created f' :
    sql_create_table (match o with Some f => f | None => empty_file end)
      = inr (tt, f') ->
    file_step now o (Some f')
| file_exec q f a f' :
    o = Some f -> exec now q f = inr (a, f') -> file_step now o (Some f').

(** A store that was never initialized, or was closed and not initialized
    since. *)
Inductive uninitialized : SQLiteQueueManager -> Prop :=
| never_initialized b :
    uninitialized (SQLiteQueueManager_constructor b)
| closed e m w m' w' :
    closeDatabase e m w = (Resolved tt, m', w') -> uninitialized m'
| still_uninitialized e r m w resp m' w' :
    uninitialized m -> r <> Initialize ->
    step e r m w = (resp, m', w') -> uninitialized m'.

(** The sqlite_sequence entry of the broker's table, 0 before the file is
    there. *)
Definition sequence_of (m : SQLiteQueueManager) (w : world) : Z :=
  match files w (dbPath w m) with
  | Some f => sequence f
  | None => 0
  end.

(** The arguments of one enqueue. *)
Record message := {
  msg_topic : string;
  msg_payload : json;
  msg_qos : option Z;
  msg_retain : option bool
}.

(** What a row holds besides its identifier and timestamp. *)
Definition content (r : row) : string * string * Z * Z :=
  (col_topic r, col_payload r, col_qos r, col_retain r).

(** What [addMessageToQueue] binds for a message. *)
Definition bound (x : message) : string * string * Z * Z :=
  (msg_topic x, stringify (msg_payload x),
   match msg_qos x with Some q => q | None => 0 end,
   if match msg_retain x with Some b => b | None => false end then 1 else 0).

(** The row an enqueue adds. *)
Definition new_row (m : SQLiteQueueManager) (w : world) (e : env) (x : message)
    : row :=
  {| col_id := sequence_of m w + 1;
     col_topic := msg_topic x;
     col_payload := stringify (msg_payload x);
     col_qos := match msg_qos x with Some q => q | None => 0 end;
     col_retain :=
       if match msg_retain x with Some b => b | None => false end then 1 else 0;
     col_timestamp := now e |}.

(** A sequence of enqueue calls, each of which resolved. *)
Inductive enqueued (m : SQLiteQueueManager)
    : world -> list (env * message) -> world -> Prop :=
| enqueued_nil w : enqueued m w [] w
| enqueued_cons w e x w1 rest w2 :
    addMessageToQueue e (msg_topic x) (msg_payload x) (msg_qos x)
      (msg_retain x) m w = (Resolved tt, m, w1) ->
    enqueued m w1 rest w2 ->
    enqueued m w ((e, x) :: rest) w2.

(** A value reads back: with recursion depth to spare and a delimiter
    after it, the parser returns it and what follows. *)
Definition reads_back (v : json) : Prop :=
  forall fuel rest,
    (size v <= fuel)%nat -> delimited rest = true ->
    parse_value fuel (stringify v ++ rest) = Some (v, rest).

(** *** Stores to run the operations on *)

Definition enqueue_of (x : message) : request :=
  Enqueue (msg_topic x) (msg_payload x) (msg_qos x) (msg_retain x).

Definition reading (topic : string) (v : Z) : message :=
  {| msg_topic := topic; msg_payload := JObj [("v", JNum v)];
     msg_qos := Some 1; msg_retain := Some false |}.

(** The store of broker "b1" after initialize() and one enqueue for each
    message, nothing failing. *)
Definition store_with (xs : list message) : SQLiteQueueManager * world :=
  run ((calm "2024-01-01 00:00:00", Initialize)
         :: map (fun x => (calm "2024-01-01 00:00:01", enqueue_of x)) xs)
      (SQLiteQueueManager_constructor "b1") (new_world "/srv/node-red").

Definition three_readings : list message :=
  [reading "sensors/t1" 42; reading "sensors/t2" 43; reading "sensors/t3" 44].

(** The [n] identifiers from [i] on. *)
Fixpoint count_from (i : Z) (n : nat) : list Z :=
  match n with
  | O => []
  | S n' => i :: count_from (i + 1) n'
  end.

(** One identifier more than a statement may have parameters. *)
Definition many_ids : list Z := count_from 1 (Z.to_nat 32767).

(** [n] readings, numbered from 0. *)
Definition readings (n : nat) : list message :=
  map (fun k => reading "sensors/t1" (Z.of_nat k)) (seq 0 n).

(** An environment in which the disk is full: the directory and the open
    succeed, every statement fails. *)
Definition disk_full : env :=
  {| mkdir_fails := false; open_fails := None; fault := Some SQLITE_FULL;
     now := "2024-01-01 00:00:00" |}.

(** A run that empties the queue, closes the store and opens it again. *)
Definition reopened_run : list (env * request) :=
  [(calm "t0", Initialize);
   (calm "t1", enqueue_of (reading "sensors/t1" 42));
   (calm "t2", enqueue_of (reading "sensors/t2" 43));
   (calm "t3", RemoveOldest);
   (calm "t4", RemoveById 2);
   (calm "t5", Close);
   (calm "t6", enqueue_of (reading "sensors/t3" 44));
   (calm "t7", Initialize);
   (calm "t8", enqueue_of (reading "sensors/t4" 45))].

Definition rows_of (o : option db_file) : list row :=
  match o with Some f => rows f | None => [] end.

Definition entry_of (o : option db_file) : Z :=
  match o with Some f => sequence f | None => 0 end.

(** The promise of a response was rejected. *)
Definition rejected (resp : response) : bool :=
  match resp with
  | Handle (Rejected _) | Count (Rejected _)
  | Messages (Rejected _) | Done (Rejected _) => true
  | _ => false
  end.

(** An environment in which nothing fails, whatever its clock. *)
Definition nothing_fails (e : env) : bool :=
  negb (mkdir_fails e)
  && match open_fails e with None => true | Some _ => false end
  && match fault e with None => true | Some _ => false end.

(* ================================================================= *)
(** ** Facts about the engine *)

Section Rowids.

Lemma ascending_sorted (l : list Z) :
  ascending l = true <-> StronglySorted Z.lt l.
Proof.
  split.
  - intros H. apply Sorted_StronglySorted; [exact Z.lt_trans|].
    induction l as [|x l IH]; [constructor|].
    destruct l as [|y l'].
    + repeat constructor.
    + simpl in H. apply andb_true_iff in H. destruct H as [Hxy Hl].
      constructor; [apply IH; exact Hl|constructor; lia].
  - intros H. apply StronglySorted_Sorted in H.
    induction H as [|x l Hs IH Hd]; [reflexivity|].
    destruct l as [|y l']; [reflexivity|].
    simpl. inversion Hd; subst. apply andb_true_iff. split; [lia|exact IH].
Qed.

Lemma sorted_filter (p : row -> bool) (rs : list row) :
  StronglySorted Z.lt (map col_id rs) ->
  StronglySorted Z.lt (map col_id (filter p rs)).
Proof.
  induction rs as [|r rs IH]; simpl; intros H; [constructor|].
  inversion H as [|? ? Hs Hall]; subst.
  destruct (p r); simpl; [constructor|]; auto.
  rewrite Forall_forall in *. intros i Hi. apply Hall.
  rewrite in_map_iff in *. destruct Hi as (r' & <- & Hin).
  exists r'. split; [reflexivity|]. apply filter_In in Hin. tauto.
Qed.

Lemma in_firstn {A : Type} (n : nat) (l : list A) (x : A) :
  In x (firstn n l) -> In x l.
Proof.
  intros H. rewrite <- (firstn_skipn n l). apply in_or_app. now left.
Qed.

Lemma sorted_firstn (n : nat) (l : list Z) :
  StronglySorted Z.lt l -> StronglySorted Z.lt (firstn n l).
Proof.
  revert l. induction n as [|n IH]; intros l H; [constructor|].
  destruct l as [|x l]; [constructor|].
  inversion H; subst. simpl. constructor; auto.
  rewrite Forall_forall in *. intros y Hy. eauto using in_firstn.
Qed.

Lemma sorted_snoc (l : list Z) (x : Z) :
  StronglySorted Z.lt l -> Forall (fun y => y < x) l ->
  StronglySorted Z.lt (l ++ [x])%list.
Proof.
  induction 1 as [|y l Hs IH Hall]; intros Hx; simpl.
  - repeat constructor.
  - inversion Hx; subst. constructor; auto.
    apply Forall_app. split; auto.
Qed.

Lemma max_rowid_le (s : Z) (rs : list row) :
  0 <= s -> Forall (fun r => col_id r <= s) rs -> max_rowid rs <= s.
Proof.
  intros Hs. induction 1; simpl; lia.
Qed.

Lemma btree_insert_last (r : row) (rs : list row) :
  Forall (fun r' => col_id r' < col_id r) rs ->
  btree_insert r rs = (rs ++ [r])%list.
Proof.
  induction 1 as [|r' rs Hlt Hall IH]; simpl; [reflexivity|].
  destruct (Z.ltb_spec (col_id r) (col_id r')); [lia|]. now rewrite IH.
Qed.

Lemma min_id_head (r : row) (rs : list row) :
  StronglySorted Z.lt (map col_id (r :: rs)) ->
  min_id (r :: rs) = Some (col_id r).
Proof.
  revert r. induction rs as [|r' rs IH]; intros r H; [reflexivity|].
  inversion H as [|? ? Hs Hall]; subst.
  change (min_id (r :: r' :: rs)) with
    (match min_id (r' :: rs) with
     | None => Some (col_id r) | Some m => Some (Z.min (col_id r) m) end).
  rewrite (IH r' Hs). inversion Hall; subst. f_equal. lia.
Qed.

Lemma filter_head_out (r : row) (rs : list row) :
  StronglySorted Z.lt (map col_id (r :: rs)) ->
  filter (fun r' => negb (col_id r' =? col_id r)) (r :: rs) = rs.
Proof.
  intros H. inversion H as [|? ? Hs Hall]; subst. simpl.
  rewrite Z.eqb_refl. simpl.
  apply forallb_filter_id. apply forallb_forall. intros r' Hin.
  rewrite Forall_forall in Hall.
  specialize (Hall (col_id r') (in_map col_id _ _ Hin)).
  destruct (Z.eqb_spec (col_id r') (col_id r)); [lia|reflexivity].
Qed.

Lemma mem_id_In (i : Z) (ids : list Z) : mem_id i ids = true <-> In i ids.
Proof.
  unfold mem_id. rewrite existsb_exists. split.
  - intros (j & Hin & Heq). apply Z.eqb_eq in Heq. now subst.
  - intros Hin. exists i. split; [exact Hin|apply Z.eqb_refl].
Qed.

End Rowids.

Section Engine.

Lemma wf_file_spec (f : db_file) :
  wf_file f = true <->
  StronglySorted Z.lt (map col_id (rows f)) /\
  Forall (fun r => 1 <= col_id r <= sequence f) (rows f) /\
  0 <= sequence f <= MAX_ROWID /\
  (has_table f = false -> rows f = [] /\ sequence f = 0).
Proof.
  unfold wf_file. rewrite !andb_true_iff, ascending_sorted, forallb_forall,
    Forall_forall, orb_true_iff, andb_true_iff, !Z.leb_le, Z.eqb_eq.
  split.
  - intros ((((Hs & Hall) & H0) & Hmax) & Ht). repeat split; auto.
    + specialize (Hall _ H). apply andb_true_iff in Hall. lia.
    + specialize (Hall _ H). apply andb_true_iff in Hall. lia.
    + destruct Ht as [Ht|[Ht _]]; [congruence|]. now destruct (rows f).
    + destruct Ht as [Ht|[_ Ht]]; [congruence|exact Ht].
  - intros (Hs & Hall & [H0 Hmax] & Ht). repeat split; auto.
    + intros r Hr. specialize (Hall _ Hr). apply andb_true_iff.
      rewrite !Z.leb_le. lia.
    + destruct (has_table f); [now left|right].
      destruct Ht as [-> ->]; auto.
Qed.

(** The rowid AUTOINCREMENT starts from is the sqlite_sequence entry. *)
Lemma top_rowid (f : db_file) :
  wf_file f = true -> Z.max (sequence f) (max_rowid (rows f)) = sequence f.
Proof.
  intros H. apply wf_file_spec in H. destruct H as (_ & Hall & Hseq & _).
  apply Z.max_l. apply max_rowid_le; [lia|].
  eapply Forall_impl; [|exact Hall]. simpl. intros; lia.
Qed.

(** An insert that succeeds appends one row, whose rowid is one more than
    the sqlite_sequence entry and becomes the new entry. *)
Lemma sql_insert_ok now t p q rt f i f' :
  wf_file f = true ->
  sql_insert now t p q rt f = inr (i, f') ->
  exists t' p',
    t = Some t' /\ p = Some p' /\ has_table f = true /\
    i = sequence f + 1 /\ sequence f < MAX_ROWID /\
    f' = {| has_table := true;
            rows := (rows f ++
                     [{| col_id := sequence f + 1; col_topic := t';
                         col_payload := p'; col_qos := q; col_retain := rt;
                         col_timestamp := now |}])%list;
            sequence := sequence f + 1 |}.
Proof.
  intros Hwf. unfold sql_insert. rewrite (top_rowid f Hwf).
  destruct (has_table f); [|discriminate].
  destruct t as [t'|]; [|discriminate]. destruct p as [p'|]; [|discriminate].
  destruct (Z.leb_spec MAX_ROWID (sequence f)) as [Hge|Hlt]; [discriminate|].
  intros Heq. inversion Heq; subst; clear Heq. exists t', p'.
  repeat split; auto. f_equal. apply btree_insert_last. simpl.
  apply wf_file_spec in Hwf. destruct Hwf as (_ & Hall & _).
  eapply Forall_impl; [|exact Hall]. simpl. intros; lia.
Qed.

(** With the table there, both texts bound and room above the sequence
    entry, the insert succeeds. *)
Lemma sql_insert_succeeds now t p q rt f :
  wf_file f = true -> has_table f = true -> sequence f < MAX_ROWID ->
  exists f', sql_insert now (Some t) (Some p) q rt f = inr (sequence f + 1, f').
Proof.
  intros Hwf Ht Hseq. unfold sql_insert. rewrite (top_rowid f Hwf), Ht.
  destruct (Z.leb_spec MAX_ROWID (sequence f)); [lia|]. eauto.
Qed.

Lemma wf_file_insert now t p q rt f i f' :
  wf_file f = true ->
  sql_insert now t p q rt f = inr (i, f') ->
  wf_file f' = true.
Proof.
  intros Hwf H. destruct (sql_insert_ok _ _ _ _ _ _ _ _ Hwf H)
    as (t' & p' & -> & -> & Ht & -> & Hlt & ->).
  apply wf_file_spec in Hwf. destruct Hwf as (Hs & Hall & Hseq & _).
  apply wf_file_spec. simpl. repeat split; try lia; try discriminate.
  - rewrite map_app. simpl. apply sorted_snoc; [exact Hs|].
    rewrite Forall_map. eapply Forall_impl; [|exact Hall]. simpl. intros; lia.
  - apply Forall_app. split.
    + eapply Forall_impl; [|exact Hall]. simpl. intros; lia.
    + repeat constructor; simpl; lia.
Qed.

Lemma wf_file_filter (p : row -> bool) (f : db_file) :
  wf_file f = true ->
  wf_file {| has_table := true; rows := filter p (rows f);
             sequence := sequence f |} = true.
Proof.
  intros Hwf. apply wf_file_spec in Hwf. destruct Hwf as (Hs & Hall & Hseq & _).
  apply wf_file_spec. simpl. repeat split; try lia; try discriminate.
  - now apply sorted_filter.
  - rewrite Forall_forall in *. intros r Hr. apply Hall.
    apply filter_In in Hr. tauto.
Qed.

(** Every statement keeps the file well formed, keeps the table once it
    is there, and never lowers the sqlite_sequence entry. *)
Lemma exec_wf now q f a f' :
  wf_file f = true ->
  exec now q f = inr (a, f') ->
  wf_file f' = true /\
  (has_table f = true -> has_table f' = true) /\
  sequence f <= sequence f'.
Proof.
  intros Hwf. destruct q; simpl.
  - unfold sql_create_table. intros H. inversion H; subst; clear H.
    destruct (has_table f) eqn:Ht.
    + split; [exact Hwf|split; [auto|lia]].
    + apply wf_file_spec in Hwf. destruct Hwf as (_ & _ & Hseq & Hno).
      destruct (Hno Ht) as [_ Hz].
      split; [reflexivity|split; [auto|simpl; lia]].
  - unfold sql_count. destruct (has_table f) eqn:Ht; [|discriminate].
    intros H. inversion H; subst. split; [exact Hwf|split; [auto|lia]].
  - intros H. split; [eapply wf_file_insert; eauto|].
    destruct (sql_insert_ok _ _ _ _ _ _ _ _ Hwf H)
      as (t' & p' & _ & _ & _ & _ & _ & ->). simpl. split; [auto|lia].
  - unfold sql_delete_min. destruct (has_table f) eqn:Ht; [|discriminate].
    intros H. inversion H; subst; clear H. simpl. split; [|split; [auto|lia]].
    destruct (min_id (rows f)); [now apply wf_file_filter|].
    destruct f; simpl in *. now subst.
  - unfold sql_select_limit. destruct (has_table f) eqn:Ht; [|discriminate].
    destruct (limit_accepted limit); [|discriminate].
    intros H. inversion H; subst. split; [exact Hwf|split; [auto|lia]].
  - unfold sql_delete_in.
    destruct (SQLITE_MAX_VARIABLE_NUMBER <? _); [discriminate|].
    destruct (has_table f); [|discriminate].
    intros H. inversion H; subst; clear H. simpl.
    split; [now apply wf_file_filter|split; [auto|lia]].
  - unfold sql_delete_id. destruct (has_table f); [|discriminate].
    intros H. inversion H; subst; clear H. simpl.
    split; [now apply wf_file_filter|split; [auto|lia]].
Qed.

End Engine.

(* ================================================================= *)
(** ** The invariant holds along every run *)

Section Invariant.

Lemma wf_spec (m : SQLiteQueueManager) (w : world) :
  wf m w = true <->
  (forall f, files w (dbPath w m) = Some f -> wf_file f = true) /\
  match db m with
  | Some h =>
      filename h = dbPath w m /\
      (is_open h = true -> exists f, files w (dbPath w m) = Some f) /\
      (dbInitialized m = true ->
       is_open h = true /\
       exists f, files w (dbPath w m) = Some f /\ has_table f = true)
  | None => dbInitialized m = false
  end.
Proof.
  unfold wf. rewrite andb_true_iff.
  assert (HA : match files w (dbPath w m) with
               | Some f => wf_file f
               | None => true
               end = true <->
               (forall f, files w (dbPath w m) = Some f -> wf_file f = true)).
  { destruct (files w (dbPath w m)) as [f|].
    - split; [intros H f' [= <-]; exact H|intros H; now apply H].
    - split; [discriminate|reflexivity]. }
  rewrite HA. clear HA.
  apply and_iff_compat_l.
  destruct (db m) as [h|]; [|now destruct (dbInitialized m)].
  rewrite !andb_true_iff, String.eqb_eq, !orb_true_iff, andb_true_iff,
    !negb_true_iff.
  destruct (files w (dbPath w m)) as [f|], (is_open h), (dbInitialized m);
    split; intros H; decompose [and or] H; clear H;
    repeat match goal with
    | H : true = true -> _ |- _ => specialize (H eq_refl)
    | H : _ /\ _ |- _ => destruct H
    | H : exists _, _ |- _ => destruct H
    | H : Some _ = Some _ |- _ => injection H as <-
    end;
    try discriminate; try tauto;
    repeat split; try discriminate; eauto.
Qed.

(** What a query does to the world: it is logged, and when the callback
    receives no error the statement ran on the file of an open handle. *)
Lemma query_spec e h q w p w' :
  query e h q w = (p, w') ->
  (exists c, p = Rejected (SqliteError c) /\ w' = logged (Database_query q) w) \/
  (exists a f f',
      p = Resolved a /\ is_open h = true /\ fault e = None /\
      files w (filename h) = Some f /\ exec (now e) q f = inr (a, f') /\
      w' = write_file (filename h) f' (logged (Database_query q) w)).
Proof.
  unfold query. destruct (is_open h); [|intros [= <- <-]; left; eauto].
  destruct (fault e) as [c|]; [intros [= <- <-]; left; eauto|].
  destruct (files w (filename h)) as [f|]; [|intros [= <- <-]; left; eauto].
  destruct (exec (now e) q f) as [c|[a f']] eqn:He; intros [= <- <-];
    [left; eauto|right]. exists a, f, f'. repeat split; auto.
Qed.

Lemma files_write_same p f w : files (write_file p f w) p = Some f.
Proof. simpl. now rewrite String.eqb_refl. Qed.

(** A query keeps the invariant: the manager's fields do not change. *)
Lemma wf_query e h q m w p w' :
  wf m w = true -> db m = Some h ->
  query e h q w = (p, w') -> wf m w' = true.
Proof.
  intros Hwf Hdb Hq. apply query_spec in Hq.
  destruct Hq as [(c & -> & ->)|(a & f & f' & -> & Ho & Hf & Hfile & He & ->)];
    [exact Hwf|].
  apply wf_spec in Hwf. rewrite Hdb in Hwf. destruct Hwf as (Hfw & Hname & _ & Hinit).
  rewrite Hname in Hfile |- *.
  destruct (exec_wf _ _ _ _ _ (Hfw _ Hfile) He) as (Hwf' & Ht & _).
  apply wf_spec. rewrite Hdb.
  change (dbPath (write_file (dbPath w m) f' (logged (Database_query q) w)) m)
    with (dbPath w m).
  rewrite files_write_same. split; [intros ? [= <-]; exact Hwf'|].
  split; [exact Hname|]. split; [eauto|].
  intros Hi. destruct (Hinit Hi) as (Hop & f0 & Hf0 & Ht0).
  split; [exact Hop|]. exists f'. split; [reflexivity|].
  apply Ht. congruence.
Qed.

Lemma wf_opened_file m w :
  wf m w = true -> wf_file (opened_file w (dbPath w m)) = true.
Proof.
  intros Hwf. apply wf_spec in Hwf. destruct Hwf as [Hf _].
  unfold opened_file. destruct (files w (dbPath w m)); auto.
Qed.

(** The four ways [initializeDatabase] ends when the store is not yet
    initialized.  The directory, the log and the files at other paths are
    left out: the invariant does not read them. *)
Lemma initializeDatabase_cases e m w p m' w' :
  initialized m = false ->
  initializeDatabase e m w = (p, m', w') ->
  cwd w' = cwd w /\
  ((p = Rejected FsError /\ m' = m /\
    files w' (dbPath w m) = files w (dbPath w m)) \/
   (exists c, open_fails e = Some c /\ p = Rejected (SqliteError c) /\
      m' = set_db (Some {| filename := dbPath w m; is_open := false |}) m /\
      files w' (dbPath w m) = files w (dbPath w m)) \/
   (exists c, open_fails e = None /\ p = Rejected (SqliteError c) /\
      m' = set_db (Some {| filename := dbPath w m; is_open := true |}) m /\
      files w' (dbPath w m) = Some (opened_file w (dbPath w m))) \/
   (exists f',
      open_fails e = None /\ fault e = None /\
      p = Resolved {| filename := dbPath w m; is_open := true |} /\
      m' = set_dbInitialized true
             (set_db (Some {| filename := dbPath w m; is_open := true |}) m) /\
      sql_create_table (opened_file w (dbPath w m)) = inr (tt, f') /\
      files w' (dbPath w m) = Some f')).
Proof.
  unfold initialized, initializeDatabase. intros Hni.
  assert (Hpath : match dbInitialized m, db m with
                  | true, Some _ => False | _, _ => True end).
  { destruct (dbInitialized m), (db m); simpl in Hni; auto; discriminate. }
  destruct (dbInitialized m), (db m) as [h0|]; try contradiction; clear Hpath Hni.
  all: cbn [data_dir logged].
  all: destruct (data_dir w); [|destruct (mkdir_fails e)];
    try (intros [= <- <- <-]; split; [reflexivity|left; auto]).
  all: destruct (open_fails e) as [c|];
    try (intros [= <- <- <-]; split; [reflexivity|right; left; eauto]).
  all: cbn [files logged make_dir]; unfold opened_file.
  all: destruct (files w (dbPath w m)) as [f0|] eqn:Hf0.
  all: match goal with
       | |- context [query ?e ?h ?q ?w0] =>
           destruct (query e h q w0) as [p0 w5] eqn:Hq;
           apply query_spec in Hq; cbn [filename] in Hq
       end.
  all: destruct Hq as [(c & -> & ->)|(a & f & f' & -> & _ & Hf & Hfile & He & ->)];
    intros [= <- <- <-].
  all: cbn [files logged make_dir write_file cwd] in *;
    rewrite ?String.eqb_refl in *; rewrite ?Hf0 in *.
  all: try solve [split; [reflexivity|right; right; left; eexists;
                                          repeat split; reflexivity]].
  all: split; [reflexivity|right; right; right].
  all: exists f'; destruct a; simpl in He;
    repeat split; auto; congruence.
Qed.

Lemma dbPath_eq m w m' w' :
  cwd w' = cwd w -> brokerId m' = brokerId m -> dbPath w' m' = dbPath w m.
Proof. unfold dbPath. now intros -> ->. Qed.

Lemma not_initialized_cases m :
  initialized m = false -> dbInitialized m = true -> db m = None.
Proof.
  unfold initialized. intros Hi Hd. rewrite Hd in Hi. now destruct (db m).
Qed.

Lemma wf_initializeDatabase e m w p m' w' :
  wf m w = true -> initializeDatabase e m w = (p, m', w') -> wf m' w' = true.
Proof.
  intros Hwf Hinit. destruct (initialized m) eqn:Hi.
  - unfold initialized in Hi. unfold initializeDatabase in Hinit.
    destruct (dbInitialized m), (db m); try discriminate.
    now injection Hinit as <- <- <-.
  - pose proof (wf_opened_file _ _ Hwf) as Hof.
    pose proof (not_initialized_cases _ Hi) as Hnone.
    destruct (initializeDatabase_cases _ _ _ _ _ _ Hi Hinit) as [Hcwd Hc].
    apply wf_spec in Hwf. destruct Hwf as [Hfw Hm].
    destruct Hc as [(-> & -> & Hf)|[(c & _ & -> & -> & Hf)|
      [(c & _ & -> & -> & Hf)|(f' & _ & _ & -> & -> & Hct & Hf)]]];
      apply wf_spec;
      match goal with
      | |- context [dbPath w' ?m0] =>
          rewrite (dbPath_eq m w m0 w' Hcwd eq_refl)
      end; rewrite Hf;
      cbn [set_db set_dbInitialized db dbInitialized filename is_open].
    + split; [exact Hfw|exact Hm].
    + split; [exact Hfw|]. split; [reflexivity|].
      split; [discriminate|]. intros Hd. rewrite (Hnone Hd) in Hm. congruence.
    + split; [intros f [= <-]; exact Hof|]. split; [reflexivity|].
      split; [eauto|]. intros Hd. rewrite (Hnone Hd) in Hm. congruence.
    + unfold sql_create_table in Hct. injection Hct as <-.
      split; [intros f [= <-]|].
      * destruct (has_table _); [exact Hof|reflexivity].
      * split; [reflexivity|]. split; [eauto|]. intros _.
        split; [reflexivity|]. eexists. split; [reflexivity|].
        destruct (has_table _) eqn:Ht; [exact Ht|reflexivity].
Qed.

(** A query changes the broker's file only by running its statement. *)
Lemma query_file e h q m w p w' :
  wf m w = true -> db m = Some h -> query e h q w = (p, w') ->
  cwd w' = cwd w /\
  ((files w' (dbPath w m) = files w (dbPath w m) /\
    exists c, p = Rejected (SqliteError c)) \/
   (exists f a f',
      files w (dbPath w m) = Some f /\ exec (now e) q f = inr (a, f') /\
      is_open h = true /\ fault e = None /\
      p = Resolved a /\ files w' (dbPath w m) = Some f')).
Proof.
  intros Hwf Hdb Hq. apply wf_spec in Hwf. rewrite Hdb in Hwf.
  destruct Hwf as (_ & Hname & _). apply query_spec in Hq. rewrite Hname in Hq.
  destruct Hq as [(c & -> & ->)|(a & f & f' & -> & Ho & Hf & Hfile & He & ->)].
  - split; [reflexivity|left; eauto].
  - split; [reflexivity|right]. exists f, a, f'.
    rewrite files_write_same. repeat split; auto.
Qed.

End Invariant.

Ltac run_query Hwf Hdb :=
  match goal with
  | |- context [query ?e ?h ?q ?w] =>
      let p := fresh "p" in
      let w1 := fresh "w" in
      let Hq := fresh "Hq" in
      destruct (query e h q w) as [p w1] eqn:Hq;
      pose proof (wf_query _ _ _ _ _ _ _ Hwf Hdb Hq);
      apply (query_file _ _ _ _ _ _ _ Hwf Hdb) in Hq;
      destruct p
  end.

Section Steps.

Lemma step_file e r m w resp m' w' :
  wf m w = true -> step e r m w = (resp, m', w') ->
  wf m' w' = true /\ dbPath w' m' = dbPath w m /\
  file_step (now e) (files w (dbPath w m)) (files w' (dbPath w m)).
Proof.
  intros Hwf.
  destruct r; cbn [step].
  - destruct (initializeDatabase e m w) as [[p m1] w1] eqn:Hi.
    intros [= <- <- <-]. split; [eapply wf_initializeDatabase; eauto|].
    destruct (initialized m) eqn:Hini.
    + unfold initialized in Hini. unfold initializeDatabase in Hi.
      destruct (dbInitialized m), (db m); try discriminate.
      injection Hi as <- <- <-. split; [reflexivity|constructor].
    + destruct (initializeDatabase_cases _ _ _ _ _ _ Hini Hi) as [Hcwd Hc].
      unfold opened_file in Hc.
      destruct Hc as [(-> & -> & Hf)|[(c & _ & -> & -> & Hf)|
        [(c & _ & -> & -> & Hf)|(f' & _ & _ & -> & -> & Hct & Hf)]]];
        (split; [now apply dbPath_eq|]); rewrite Hf;
        [constructor|constructor|constructor|now apply file_created].
  - unfold getQueueLength. destruct (db m) as [h|] eqn:Hdb.
    2: { intros [= <- <- <-]. repeat split; auto. constructor. }
    run_query Hwf Hdb; intros [= <- <- <-];
      destruct Hq as [Hcwd [[Hf _]|(f & a0 & f' & Hf & He & _ & _ & _ & Hf')]];
      (split; [assumption|split; [now apply dbPath_eq|]]);
      try (rewrite Hf; constructor); rewrite Hf'; eapply file_exec; eauto.
  - unfold addMessageToQueue. destruct (db m) as [h|] eqn:Hdb.
    2: { intros [= <- <- <-]. repeat split; auto. constructor. }
    run_query Hwf Hdb; intros [= <- <- <-];
      destruct Hq as [Hcwd [[Hf _]|(f & a0 & f' & Hf & He & _ & _ & _ & Hf')]];
      (split; [assumption|split; [now apply dbPath_eq|]]);
      try (rewrite Hf; constructor); rewrite Hf'; eapply file_exec; eauto.
  - unfold removeOldestMessage. destruct (db m) as [h|] eqn:Hdb.
    2: { intros [= <- <- <-]. repeat split; auto. constructor. }
    run_query Hwf Hdb; intros [= <- <- <-];
      destruct Hq as [Hcwd [[Hf _]|(f & a0 & f' & Hf & He & _ & _ & _ & Hf')]];
      (split; [assumption|split; [now apply dbPath_eq|]]);
      try (rewrite Hf; constructor); rewrite Hf'; eapply file_exec; eauto.
  - unfold getMessagesFromQueue. destruct (db m) as [h|] eqn:Hdb.
    2: { intros [= <- <- <-]. repeat split; auto. constructor. }
    run_query Hwf Hdb; intros [= <- <- <-];
      destruct Hq as [Hcwd [[Hf _]|(f & a0 & f' & Hf & He & _ & _ & _ & Hf')]];
      (split; [assumption|split; [now apply dbPath_eq|]]);
      try (rewrite Hf; constructor); rewrite Hf'; eapply file_exec; eauto.
  - unfold removeMessagesFromQueue. destruct (db m) as [h|] eqn:Hdb.
    2: { intros [= <- <- <-]. repeat split; auto. constructor. }
    destruct ids as [|i ids].
    { intros [= <- <- <-]. repeat split; auto. constructor. }
    run_query Hwf Hdb; intros [= <- <- <-];
      destruct Hq as [Hcwd [[Hf _]|(f & a0 & f' & Hf & He & _ & _ & _ & Hf')]];
      (split; [assumption|split; [now apply dbPath_eq|]]);
      try (rewrite Hf; constructor); rewrite Hf'; eapply file_exec; eauto.
  - unfold removeMessageFromQueue. destruct (db m) as [h|] eqn:Hdb.
    2: { intros [= <- <- <-]. repeat split; auto. constructor. }
    run_query Hwf Hdb; intros [= <- <- <-];
      destruct Hq as [Hcwd [[Hf _]|(f & a0 & f' & Hf & He & _ & _ & _ & Hf')]];
      (split; [assumption|split; [now apply dbPath_eq|]]);
      try (rewrite Hf; constructor); rewrite Hf'; eapply file_exec; eauto.
  - unfold closeDatabase. destruct (db m) as [h|] eqn:Hdb.
    2: { intros [= <- <- <-]. repeat split; auto. constructor. }
    destruct (is_open h); [destruct (fault e)|]; intros [= <- <- <-];
      (split; [|split; [reflexivity|constructor]]); try exact Hwf.
    apply wf_spec in Hwf. apply wf_spec. simpl. tauto.
Qed.

End Steps.

Section Runs.

Lemma wf_new b cwd : wf (SQLiteQueueManager_constructor b) (new_world cwd) = true.
Proof. reflexivity. Qed.

Lemma wf_run calls : forall m w m' w',
  wf m w = true -> run calls m w = (m', w') -> wf m' w' = true.
Proof.
  induction calls as [|[e r] calls IH]; intros m w m' w' Hwf; simpl.
  - now intros [= <- <-].
  - destruct (step e r m w) as [[resp m1] w1] eqn:Hs.
    apply (IH m1 w1). eapply step_file; eauto.
Qed.

Lemma initialized_inv m w :
  wf m w = true -> initialized m = true ->
  exists h f,
    db m = Some h /\ is_open h = true /\ filename h = dbPath w m /\
    files w (dbPath w m) = Some f /\ has_table f = true /\ wf_file f = true.
Proof.
  intros Hwf Hi. unfold initialized in Hi. apply andb_true_iff in Hi.
  destruct Hi as [Hd Hdb]. apply wf_spec in Hwf.
  destruct (db m) as [h|]; [|discriminate].
  destruct Hwf as (Hfw & Hname & _ & Hinit).
  destruct (Hinit Hd) as (Ho & f & Hf & Ht).
  exists h, f. repeat split; auto.
Qed.

(** On an initialized store a statement the engine does not fail runs on
    the broker's file. *)
Lemma initialized_query e q m w h f :
  wf m w = true -> initialized m = true -> fault e = None ->
  db m = Some h -> files w (dbPath w m) = Some f ->
  query e h q w =
  match exec (now e) q f with
  | inl c => (Rejected (SqliteError c), logged (Database_query q) w)
  | inr (a, f') =>
      (Resolved a, write_file (dbPath w m) f' (logged (Database_query q) w))
  end.
Proof.
  intros Hwf Hi Hf Hdb Hfile.
  destruct (initialized_inv _ _ Hwf Hi) as (h' & f' & Hdb' & Ho & Hname & _).
  rewrite Hdb in Hdb'. injection Hdb' as <-.
  unfold query. now rewrite Ho, Hf, Hname, Hfile.
Qed.

Lemma pending_write m w f c :
  pending m (write_file (dbPath w m) f (logged c w)) = rows f.
Proof.
  unfold pending.
  change (dbPath (write_file (dbPath w m) f (logged c w)) m) with (dbPath w m).
  now rewrite files_write_same.
Qed.

End Runs.

(* ================================================================= *)
(** ** The handle and the error of an uninitialized store *)

Section Handle.

Lemma step_keeps_manager e r m w resp m' w' :
  r <> Initialize -> db m = None -> step e r m w = (resp, m', w') -> m' = m.
Proof.
  intros Hr Hdb. destruct r; try congruence; cbn [step];
    unfold getQueueLength, addMessageToQueue, removeOldestMessage,
      getMessagesFromQueue, removeMessagesFromQueue, removeMessageFromQueue,
      closeDatabase; rewrite Hdb; now intros [= _ <- _].
Qed.

Lemma uninitialized_null m : uninitialized m -> db m = None.
Proof.
  induction 1 as [b|e m w m' w' Hc|e r m w resp m' w' Hu IH Hr Hs].
  - reflexivity.
  - unfold closeDatabase in Hc. destruct (db m) as [h|] eqn:Hdb.
    + destruct (is_open h); [destruct (fault e)|]; try discriminate.
      now injection Hc as <- _.
    + now injection Hc as <- _.
  - now rewrite (step_keeps_manager _ _ _ _ _ _ _ Hr IH Hs).
Qed.

(** C4: on a store that was never initialized or has been closed, enqueue,
    removeOldest and removeById are rejected with "Database not
    initialized" and change nothing, while length() resolves to 0 and
    list() to the empty sequence. *)
Theorem uninitialized_store_defaults e m w :
  uninitialized m ->
  (forall topic payload qos retain,
      addMessageToQueue e topic payload qos retain m w
      = (Rejected Database_not_initialized, m, w)) /\
  removeOldestMessage e m w = (Rejected Database_not_initialized, m, w) /\
  (forall i, removeMessageFromQueue e i m w
             = (Rejected Database_not_initialized, m, w)) /\
  getQueueLength e m w = (Resolved 0, m, w) /\
  (forall limit, getMessagesFromQueue e limit m w = (Resolved [], m, w)).
Proof.
  intros Hu. apply uninitialized_null in Hu.
  unfold addMessageToQueue, removeOldestMessage, removeMessageFromQueue,
    getQueueLength, getMessagesFromQueue. rewrite Hu. repeat split.
Qed.

(** C9: when the store is already initialized, initialize() resolves to
    the handle the manager holds and leaves the manager and the world as
    they were: no call reaches the file system or the engine. *)
Theorem initialize_idempotent e m w :
  initialized m = true ->
  exists h,
    db m = Some h /\
    initializeDatabase e m w = (Resolved h, m, w) /\
    log (snd (initializeDatabase e m w)) = log w.
Proof.
  unfold initialized, initializeDatabase. intros Hi.
  destruct (dbInitialized m); [|discriminate].
  destruct (db m) as [h|]; [|discriminate]. exists h. repeat split.
Qed.

Lemma query_not_uninitialized e h q w :
  fst (query e h q w) <> Rejected Database_not_initialized.
Proof.
  destruct (query e h q w) as [p w'] eqn:Hq. apply query_spec in Hq.
  destruct Hq as [(c & -> & _)|(a & f & f' & -> & _)]; simpl; discriminate.
Qed.

Lemma enqueue_rejection e topic payload qos retain m w :
  fst (fst (addMessageToQueue e topic payload qos retain m w))
    = Rejected Database_not_initialized <-> db m = None.
Proof.
  unfold addMessageToQueue. destruct (db m) as [h|]; [|simpl; tauto].
  match goal with |- context [query ?e ?h ?q ?w] =>
    pose proof (query_not_uninitialized e h q w) as Hn;
    destruct (query e h q w) as [[a|err] w'] end; simpl in *;
    split; intros H; congruence.
Qed.

Lemma removeOldest_rejection e m w :
  fst (fst (removeOldestMessage e m w))
    = Rejected Database_not_initialized <-> db m = None.
Proof.
  unfold removeOldestMessage. destruct (db m) as [h|]; [|simpl; tauto].
  match goal with |- context [query ?e ?h ?q ?w] =>
    pose proof (query_not_uninitialized e h q w) as Hn;
    destruct (query e h q w) as [[a|err] w'] end; simpl in *;
    split; intros H; congruence.
Qed.

Lemma removeById_rejection e i m w :
  fst (fst (removeMessageFromQueue e i m w))
    = Rejected Database_not_initialized <-> db m = None.
Proof.
  unfold removeMessageFromQueue. destruct (db m) as [h|]; [|simpl; tauto].
  match goal with |- context [query ?e ?h ?q ?w] =>
    pose proof (query_not_uninitialized e h q w) as Hn;
    destruct (query e h q w) as [[a|err] w'] end; simpl in *;
    split; intros H; congruence.
Qed.

(** An initialize() whose directory and open succeed and whose schema
    statement the engine fails: the promise is rejected with the engine's
    error, the handle is already assigned and open, and the flag is as it
    was. *)
Lemma schema_failure e c m w :
  initialized m = false ->
  mkdir_fails e = false -> open_fails e = None -> fault e = Some c ->
  exists w',
    initializeDatabase e m w
    = (Rejected (SqliteError c),
       set_db (Some {| filename := dbPath w m; is_open := true |}) m, w').
Proof.
  intros Hi Hmk Ho Hf. unfold initialized in Hi. unfold initializeDatabase, query.
  rewrite Hmk, Ho, Hf. cbn [is_open].
  destruct (dbInitialized m), (db m); try discriminate;
    cbn [data_dir logged]; destruct (data_dir w); eauto.
Qed.

(** C10: enqueue, removeOldest and removeById are rejected with "Database
    not initialized" exactly when [db] is null, whatever [dbInitialized]
    says; an initialize() that fails at the schema statement is rejected
    but leaves [db] set, to an open handle, and [dbInitialized] false, and
    an enqueue after it is not rejected with "Database not initialized". *)
Theorem not_initialized_tracks_handle :
  (forall e topic payload qos retain m w,
      fst (fst (addMessageToQueue e topic payload qos retain m w))
        = Rejected Database_not_initialized <-> db m = None) /\
  (forall e m w,
      fst (fst (removeOldestMessage e m w))
        = Rejected Database_not_initialized <-> db m = None) /\
  (forall e i m w,
      fst (fst (removeMessageFromQueue e i m w))
        = Rejected Database_not_initialized <-> db m = None) /\
  (forall e c m w,
      wf m w = true -> initialized m = false ->
      mkdir_fails e = false -> open_fails e = None -> fault e = Some c ->
      exists m' w',
        initializeDatabase e m w = (Rejected (SqliteError c), m', w') /\
        (exists h, db m' = Some h /\ is_open h = true) /\
        dbInitialized m' = false /\
        forall e' topic payload qos retain,
          fst (fst (addMessageToQueue e' topic payload qos retain m' w'))
            <> Rejected Database_not_initialized).
Proof.
  split; [exact enqueue_rejection|]. split; [exact removeOldest_rejection|].
  split; [exact removeById_rejection|].
  intros e c m w Hwf Hni Hmk Ho Hf.
  destruct (schema_failure e c m w Hni Hmk Ho Hf) as (w' & Hi).
  eexists _, w'. split; [exact Hi|]. split; [simpl; eauto|]. split.
  - cbn [set_db dbInitialized]. apply wf_spec in Hwf. destruct Hwf as [_ Hm].
    unfold initialized in Hni. destruct (db m); [|exact Hm].
    now rewrite andb_true_r in Hni.
  - intros e' topic payload qos retain Hr.
    apply enqueue_rejection in Hr. discriminate.
Qed.

Lemma uninitialized_store_defaults_witness :
  getQueueLength (calm "t") (SQLiteQueueManager_constructor "b1")
    (new_world "/srv/node-red")
  = (Resolved 0, SQLiteQueueManager_constructor "b1", new_world "/srv/node-red")
  /\
  removeOldestMessage (calm "t") (SQLiteQueueManager_constructor "b1")
    (new_world "/srv/node-red")
  = (Rejected Database_not_initialized, SQLiteQueueManager_constructor "b1",
     new_world "/srv/node-red").
Proof.
  destruct (uninitialized_store_defaults (calm "t")
              (SQLiteQueueManager_constructor "b1") (new_world "/srv/node-red")
              (never_initialized "b1")) as (_ & Hr & _ & Hl & _).
  split; [exact Hl|exact Hr].
Defined.

Lemma initialize_idempotent_witness :
  exists h,
    initializeDatabase (calm "t") (fst (store_with [])) (snd (store_with []))
    = (Resolved h, fst (store_with []), snd (store_with [])).
Proof.
  destruct (initialize_idempotent (calm "t") (fst (store_with []))
              (snd (store_with [])) eq_refl) as (h & _ & Hi & _).
  exists h. exact Hi.
Defined.

Lemma not_initialized_tracks_handle_witness :
  exists m' w',
    initializeDatabase disk_full (SQLiteQueueManager_constructor "b1")
      (new_world "/srv/node-red")
    = (Rejected (SqliteError SQLITE_FULL), m', w') /\
    dbInitialized m' = false /\
    fst (fst (addMessageToQueue (calm "t") "sensors/t1" JNull None None m' w'))
    <> Rejected Database_not_initialized.
Proof.
  destruct not_initialized_tracks_handle as (_ & _ & _ & H).
  destruct (H disk_full SQLITE_FULL (SQLiteQueueManager_constructor "b1")
              (new_world "/srv/node-red") eq_refl eq_refl eq_refl eq_refl eq_refl)
    as (m' & w' & Hi & _ & Hd & Hn).
  exists m', w'. split; [exact Hi|]. split; [exact Hd|]. apply Hn.
Defined.

End Handle.

(* ================================================================= *)
(** ** The operations on an initialized store *)

Section Initialized.

Variables (m : SQLiteQueueManager) (w : world).
Hypothesis Hwf : wf m w = true.
Hypothesis Hinit : initialized m = true.

Lemma pending_sorted : StronglySorted Z.lt (map col_id (pending m w)).
Proof.
  unfold pending. clear Hinit. apply wf_spec in Hwf. destruct Hwf as [Hf _].
  destruct (files w (dbPath w m)) as [f|]; [|constructor].
  specialize (Hf f eq_refl). apply wf_file_spec in Hf. tauto.
Qed.

Lemma getQueueLength_initialized e :
  fault e = None ->
  exists w',
    getQueueLength e m w = (Resolved (Z.of_nat (List.length (pending m w))), m, w')
    /\ pending m w' = pending m w.
Proof.
  intros Hf. destruct (initialized_inv _ _ Hwf Hinit)
    as (h & f & Hdb & Ho & Hname & Hfile & Ht & Hwff).
  unfold getQueueLength. rewrite Hdb.
  rewrite (initialized_query e SELECT_COUNT m w h f Hwf Hinit Hf Hdb Hfile).
  simpl. unfold sql_count, pending. rewrite Ht, Hfile.
  eexists. split; [reflexivity|].
  change (dbPath (write_file (dbPath w m) f (logged (Database_query SELECT_COUNT) w)) m)
    with (dbPath w m).
  now rewrite files_write_same.
Qed.

Lemma getMessagesFromQueue_initialized e limit :
  fault e = None ->
  limit_accepted (match limit with Some n => n | None => 500 end) = true ->
  exists w',
    getMessagesFromQueue e limit m w
    = (Resolved (sql_limit (match limit with Some n => n | None => 500 end)
                           (pending m w)), m, w')
    /\ pending m w' = pending m w.
Proof.
  intros Hf Hacc. destruct (initialized_inv _ _ Hwf Hinit)
    as (h & f & Hdb & Ho & Hname & Hfile & Ht & Hwff).
  unfold getMessagesFromQueue. rewrite Hdb.
  rewrite (initialized_query e _ m w h f Hwf Hinit Hf Hdb Hfile).
  cbn [exec]. unfold sql_select_limit, pending. rewrite Ht, Hacc, Hfile.
  eexists. split; [reflexivity|].
  match goal with |- context [dbPath (write_file ?p ?f0 ?w0) m] =>
    change (dbPath (write_file p f0 w0) m) with (dbPath w m) end.
  now rewrite files_write_same.
Qed.

Lemma removeOldestMessage_initialized e :
  fault e = None ->
  exists w',
    removeOldestMessage e m w = (Resolved tt, m, w')
    /\ pending m w' = tl (pending m w).
Proof.
  intros Hf. pose proof pending_sorted as Hs.
  destruct (initialized_inv _ _ Hwf Hinit)
    as (h & f & Hdb & Ho & Hname & Hfile & Ht & Hwff).
  unfold removeOldestMessage. rewrite Hdb.
  rewrite (initialized_query e _ m w h f Hwf Hinit Hf Hdb Hfile).
  simpl. unfold sql_delete_min. rewrite Ht.
  eexists. split; [reflexivity|]. rewrite pending_write. simpl.
  unfold pending in *. rewrite Hfile in *.
  destruct (rows f) as [|r rs]; [reflexivity|].
  rewrite (min_id_head r rs Hs). now apply filter_head_out.
Qed.

Lemma removeMessagesFromQueue_initialized e ids :
  fault e = None ->
  Z.of_nat (List.length ids) <= SQLITE_MAX_VARIABLE_NUMBER ->
  exists w',
    removeMessagesFromQueue e ids m w = (Resolved tt, m, w')
    /\ pending m w'
       = filter (fun r => negb (mem_id (col_id r) ids)) (pending m w).
Proof.
  intros Hf Hlen. destruct (initialized_inv _ _ Hwf Hinit)
    as (h & f & Hdb & Ho & Hname & Hfile & Ht & Hwff).
  unfold removeMessagesFromQueue. rewrite Hdb.
  destruct ids as [|i ids].
  - exists w. split; [reflexivity|]. symmetry. now apply forallb_filter_id,
      forallb_forall.
  - rewrite (initialized_query e _ m w h f Hwf Hinit Hf Hdb Hfile).
    cbn [exec]. unfold sql_delete_in.
    destruct (Z.ltb_spec SQLITE_MAX_VARIABLE_NUMBER
                (Z.of_nat (List.length (i :: ids)))); [lia|].
    rewrite Ht.
    eexists. split; [reflexivity|]. rewrite pending_write. simpl.
    unfold pending. now rewrite Hfile.
Qed.

(** With more identifiers than one statement may have parameters the
    delete is rejected and nothing is deleted. *)
Lemma removeMessagesFromQueue_too_many e ids :
  SQLITE_MAX_VARIABLE_NUMBER < Z.of_nat (List.length ids) ->
  exists c w',
    removeMessagesFromQueue e ids m w = (Rejected (SqliteError c), m, w')
    /\ pending m w' = pending m w
    /\ (fault e = None -> c = SQLITE_ERROR).
Proof.
  intros Hlen. destruct (initialized_inv _ _ Hwf Hinit)
    as (h & f & Hdb & Ho & Hname & Hfile & Ht & Hwff).
  unfold removeMessagesFromQueue, query. rewrite Hdb, Ho, Hname, Hfile.
  destruct ids as [|i ids]; [cbn in Hlen; unfold SQLITE_MAX_VARIABLE_NUMBER in Hlen; lia|].
  destruct (fault e) as [c|].
  - exists c. eexists. repeat split. discriminate.
  - cbn [exec]. unfold sql_delete_in.
    destruct (Z.ltb_spec SQLITE_MAX_VARIABLE_NUMBER
                (Z.of_nat (List.length (i :: ids)))); [|lia].
    exists SQLITE_ERROR. eexists. repeat split.
Qed.

(** A limit that is no 64-bit integer is a datatype mismatch. *)
Lemma getMessagesFromQueue_mismatch e limit :
  fault e = None -> limit_accepted limit = false ->
  exists w',
    getMessagesFromQueue e (Some limit) m w
    = (Rejected (SqliteError SQLITE_MISMATCH), m, w')
    /\ pending m w' = pending m w.
Proof.
  intros Hf Hacc. destruct (initialized_inv _ _ Hwf Hinit)
    as (h & f & Hdb & Ho & Hname & Hfile & Ht & Hwff).
  unfold getMessagesFromQueue. rewrite Hdb.
  rewrite (initialized_query e _ m w h f Hwf Hinit Hf Hdb Hfile).
  cbn [exec]. unfold sql_select_limit. rewrite Ht, Hacc.
  eexists. repeat split.
Qed.

Lemma removeMessageFromQueue_initialized e i :
  fault e = None ->
  exists w',
    removeMessageFromQueue e i m w = (Resolved tt, m, w')
    /\ pending m w' = filter (fun r => negb (col_id r =? i)) (pending m w).
Proof.
  intros Hf. destruct (initialized_inv _ _ Hwf Hinit)
    as (h & f & Hdb & Ho & Hname & Hfile & Ht & Hwff).
  unfold removeMessageFromQueue. rewrite Hdb.
  rewrite (initialized_query e _ m w h f Hwf Hinit Hf Hdb Hfile).
  simpl. unfold sql_delete_id. rewrite Ht.
  eexists. split; [reflexivity|]. rewrite pending_write. simpl.
  unfold pending. now rewrite Hfile.
Qed.

Lemma addMessageToQueue_initialized e x :
  fault e = None -> sequence_of m w < MAX_ROWID ->
  exists w',
    addMessageToQueue e (msg_topic x) (msg_payload x) (msg_qos x)
      (msg_retain x) m w = (Resolved tt, m, w')
    /\ pending m w' = (pending m w ++ [new_row m w e x])%list
    /\ sequence_of m w' = sequence_of m w + 1.
Proof.
  intros Hf Hseq. destruct (initialized_inv _ _ Hwf Hinit)
    as (h & f & Hdb & Ho & Hname & Hfile & Ht & Hwff).
  unfold sequence_of in *. rewrite Hfile in Hseq.
  unfold addMessageToQueue. rewrite Hdb.
  rewrite (initialized_query e _ m w h f Hwf Hinit Hf Hdb Hfile).
  cbn [exec].
  destruct (sql_insert_succeeds (now e) (msg_topic x)
              (stringify (msg_payload x))
              (match msg_qos x with Some q => q | None => 0 end)
              (if match msg_retain x with Some b => b | None => false end
               then 1 else 0) f Hwff Ht Hseq) as (f' & Hins).
  rewrite Hins.
  destruct (sql_insert_ok _ _ _ _ _ _ _ _ Hwff Hins)
    as (t' & p' & [= <-] & [= <-] & _ & _ & _ & ->).
  eexists. split; [reflexivity|]. rewrite pending_write.
  match goal with |- context [dbPath (write_file ?p ?f0 ?w0) m] =>
    change (dbPath (write_file p f0 w0) m) with (dbPath w m) end.
  rewrite ?files_write_same. unfold pending, new_row, sequence_of.
  rewrite ?Hfile. split; reflexivity.
Qed.

End Initialized.

Section Removal.

Lemma wf_after e r m w resp m' w' :
  wf m w = true -> step e r m w = (resp, m', w') -> wf m' w' = true.
Proof. intros Hwf Hs. now destruct (step_file _ _ _ _ _ _ _ Hwf Hs). Qed.

Lemma wf_store_with xs : wf (fst (store_with xs)) (snd (store_with xs)) = true.
Proof.
  unfold store_with.
  match goal with |- context [run ?c ?m0 ?w0] =>
    destruct (run c m0 w0) as [m w] eqn:Hr;
    exact (wf_run _ _ _ _ _ (wf_new _ _) Hr)
  end.
Qed.

Lemma sorted_head_least (r : row) (rest : list row) :
  StronglySorted Z.lt (map col_id (r :: rest)) ->
  Forall (fun r' => col_id r < col_id r') rest.
Proof.
  intros H. inversion H as [|? ? _ Hall]; subst.
  now rewrite Forall_map in Hall.
Qed.

(** C5: on an initialized store removeOldest() resolves; when messages
    are pending it deletes the first one, whose identifier is smaller than
    every other, and leaves the others, so that length() drops by exactly
    1; when none is pending it deletes nothing and length() is unchanged. *)
Theorem removeOldest_deletes_smallest e m w :
  wf m w = true -> initialized m = true -> fault e = None ->
  exists w',
    removeOldestMessage e m w = (Resolved tt, m, w') /\
    match pending m w with
    | [] => pending m w' = []
    | r :: rest =>
        pending m w' = rest /\ Forall (fun r' => col_id r < col_id r') rest
    end /\
    forall e1 e2, fault e1 = None -> fault e2 = None ->
      exists n,
        fst (fst (getQueueLength e1 m w)) = Resolved n /\
        fst (fst (getQueueLength e2 m w'))
        = Resolved (match pending m w with [] => n | _ :: _ => n - 1 end).
Proof.
  intros Hwf Hi Hf.
  destruct (removeOldestMessage_initialized m w Hwf Hi e Hf) as (w' & Hr & Hp).
  assert (Hwf' : wf m w' = true).
  { apply (wf_after e RemoveOldest m w (Done (Resolved tt)) m w' Hwf).
    cbn [step]. now rewrite Hr. }
  pose proof (pending_sorted m w Hwf) as Hs.
  exists w'. split; [exact Hr|]. split.
  - rewrite Hp. destruct (pending m w) as [|r rest]; [reflexivity|].
    split; [reflexivity|now apply sorted_head_least].
  - intros e1 e2 H1 H2.
    destruct (getQueueLength_initialized m w Hwf Hi e1 H1) as (w1 & -> & _).
    destruct (getQueueLength_initialized m w' Hwf' Hi e2 H2) as (w2 & -> & _).
    eexists. split; [reflexivity|]. simpl. f_equal. rewrite Hp.
    destruct (pending m w) as [|r rest]; [reflexivity|].
    cbn [tl List.length]. lia.
Qed.

Lemma removeOldest_deletes_smallest_witness :
  exists w',
    removeOldestMessage (calm "t") (fst (store_with three_readings))
      (snd (store_with three_readings))
    = (Resolved tt, fst (store_with three_readings), w') /\
    map col_id (pending (fst (store_with three_readings)) w') = [2; 3].
Proof.
  destruct (removeOldest_deletes_smallest (calm "t")
              (fst (store_with three_readings))
              (snd (store_with three_readings))
              eq_refl eq_refl eq_refl) as (w' & Hr & Hp & _).
  exists w'. split; [exact Hr|].
  remember (pending (fst (store_with three_readings))
              (snd (store_with three_readings))) as before eqn:Hb.
  vm_compute in Hb. subst before. destruct Hp as [-> _]. reflexivity.
Defined.

(** C6, as the code has it: removeByIds(ids) changes nothing when the
    handle is null or when ids is empty; on an initialized store, with at
    most 32766 identifiers, it resolves and leaves exactly the pending
    messages whose identifier is not in ids, in their order, whether or
    not every identifier of ids was present; with more than 32766
    identifiers it is rejected and deletes nothing; with identifiers
    1, 2, 3 pending, removing 1 and 3 leaves exactly 2. *)
Theorem removeByIds_deletes_listed :
  (forall e ids m w,
      db m = None -> removeMessagesFromQueue e ids m w = (Resolved tt, m, w)) /\
  (forall e m w, removeMessagesFromQueue e [] m w = (Resolved tt, m, w)) /\
  (forall e ids m w,
      wf m w = true -> initialized m = true -> fault e = None ->
      Z.of_nat (List.length ids) <= SQLITE_MAX_VARIABLE_NUMBER ->
      exists w',
        removeMessagesFromQueue e ids m w = (Resolved tt, m, w') /\
        pending m w'
        = filter (fun r => negb (mem_id (col_id r) ids)) (pending m w) /\
        forall r, In r (pending m w') <->
                  In r (pending m w) /\ ~ In (col_id r) ids) /\
  (forall e ids m w,
      wf m w = true -> initialized m = true ->
      SQLITE_MAX_VARIABLE_NUMBER < Z.of_nat (List.length ids) ->
      exists c w',
        removeMessagesFromQueue e ids m w
        = (Rejected (SqliteError c), m, w') /\
        pending m w' = pending m w /\
        (fault e = None -> c = SQLITE_ERROR)) /\
  (let (m, w) := store_with three_readings in
   map col_id (pending m w) = [1; 2; 3] /\
   map col_id
     (pending m (snd (removeMessagesFromQueue (calm "t") [1; 3] m w))) = [2]).
Proof.
  split; [|split; [|split; [|split]]].
  - intros e ids m w Hdb. unfold removeMessagesFromQueue. now rewrite Hdb.
  - intros e m w. unfold removeMessagesFromQueue. now destruct (db m).
  - intros e ids m w Hwf Hi Hf Hlen.
    destruct (removeMessagesFromQueue_initialized m w Hwf Hi e ids Hf Hlen)
      as (w' & Hr & Hp).
    exists w'. split; [exact Hr|]. split; [exact Hp|].
    intros r. rewrite Hp, filter_In, negb_true_iff.
    rewrite <- (mem_id_In (col_id r) ids).
    destruct (mem_id (col_id r) ids); intuition congruence.
  - intros e ids m w Hwf Hi Hlen.
    exact (removeMessagesFromQueue_too_many m w Hwf Hi e ids Hlen).
  - vm_compute. split; reflexivity.
Qed.

Lemma removeByIds_deletes_listed_witness :
  exists w',
    removeMessagesFromQueue (calm "t") [3; 7; 1]
      (fst (store_with three_readings)) (snd (store_with three_readings))
    = (Resolved tt, fst (store_with three_readings), w') /\
    map col_id (pending (fst (store_with three_readings)) w') = [2].
Proof.
  destruct removeByIds_deletes_listed as (_ & _ & H & _).
  destruct (H (calm "t") [3; 7; 1] (fst (store_with three_readings))
              (snd (store_with three_readings)) eq_refl eq_refl eq_refl
              ltac:(vm_compute; discriminate))
    as (w' & Hr & Hp & _).
  exists w'. split; [exact Hr|]. rewrite Hp. reflexivity.
Defined.

(** With identifiers 1, 2, 3 pending, removeByIds with the 32767
    identifiers 1 to 32767 is rejected although nothing outside fails,
    and the three messages are still pending. *)
Lemma removeByIds_too_many_rejected :
  Z.of_nat (List.length many_ids) = 32767 /\
  In 1 many_ids /\ In 2 many_ids /\ In 3 many_ids /\
  fst (fst (removeMessagesFromQueue (calm "t") many_ids
              (fst (store_with three_readings))
              (snd (store_with three_readings))))
  = Rejected (SqliteError SQLITE_ERROR) /\
  map col_id
    (pending (fst (store_with three_readings))
       (snd (removeMessagesFromQueue (calm "t") many_ids
               (fst (store_with three_readings))
               (snd (store_with three_readings)))))
  = [1; 2; 3].
Proof.
  split; [vm_compute; reflexivity|].
  split; [left; reflexivity|].
  split; [right; left; reflexivity|].
  split; [right; right; left; reflexivity|].
  split; vm_compute; reflexivity.
Qed.

End Removal.

(* ================================================================= *)
(** ** Enqueue and list *)

Section Fifo.

Lemma sql_limit_prefix {A : Type} (n : Z) (l : list A) :
  exists rest, l = (sql_limit n l ++ rest)%list.
Proof.
  unfold sql_limit. destruct (n <? 0).
  - exists []. now rewrite List.app_nil_r.
  - exists (skipn (Z.to_nat n) l). now rewrite firstn_skipn.
Qed.

Lemma sql_limit_length {A : Type} (n : Z) (l : list A) :
  0 <= n -> Z.of_nat (List.length (sql_limit n l)) <= n.
Proof.
  intros Hn. unfold sql_limit. destruct (Z.ltb_spec n 0); [lia|].
  pose proof (firstn_le_length (Z.to_nat n) l). lia.
Qed.

Lemma sql_limit_sorted (n : Z) (rs : list row) :
  StronglySorted Z.lt (map col_id rs) ->
  StronglySorted Z.lt (map col_id (sql_limit n rs)).
Proof.
  intros Hs. unfold sql_limit. destruct (n <? 0); [exact Hs|].
  rewrite <- firstn_map. now apply sorted_firstn.
Qed.

(** Whatever list() resolves to is a prefix of the pending messages, and
    the call removes nothing. *)
Lemma getMessagesFromQueue_resolved e limit m w rs :
  wf m w = true ->
  fst (fst (getMessagesFromQueue e limit m w)) = Resolved rs ->
  (rs = [] \/
   rs = sql_limit (match limit with Some n => n | None => 500 end) (pending m w))
  /\ pending m (snd (getMessagesFromQueue e limit m w)) = pending m w.
Proof.
  intros Hwf. unfold getMessagesFromQueue.
  destruct (db m) as [h|] eqn:Hdb; [|simpl; intros [= <-]; auto].
  run_query Hwf Hdb; simpl; intros [= <-];
    destruct Hq as [Hcwd [[Hf (c & Hc)]|(f & a0 & f' & Hf & He & _ & _ & Ha & Hf')]];
    try discriminate.
  injection Ha as <-. simpl in He. unfold sql_select_limit in He.
  destruct (has_table f); [|discriminate].
  destruct (limit_accepted _); [|discriminate]. injection He as <- <-.
  unfold pending. rewrite (dbPath_eq m w m w0 Hcwd eq_refl), Hf, Hf'. auto.
Qed.

(** An enqueue that resolves has appended one row, with the next
    identifier after the sqlite_sequence entry. *)
Lemma addMessageToQueue_resolved e x m w m' w' :
  wf m w = true ->
  addMessageToQueue e (msg_topic x) (msg_payload x) (msg_qos x) (msg_retain x)
    m w = (Resolved tt, m', w') ->
  m' = m /\ wf m w' = true /\
  pending m w' = (pending m w ++ [new_row m w e x])%list /\
  sequence_of m w' = sequence_of m w + 1 /\
  sequence_of m w < MAX_ROWID.
Proof.
  intros Hwf. unfold addMessageToQueue.
  destruct (db m) as [h|] eqn:Hdb; [|discriminate].
  run_query Hwf Hdb; intros [= <- <-]; split; [reflexivity|].
  split; [assumption|].
  destruct Hq as [Hcwd [[Hf (c & Hc)]|(f & a0 & f' & Hf & He & _ & _ & Ha & Hf')]];
    [discriminate|].
  cbn [exec] in He.
  assert (Hwff : wf_file f = true).
  { apply wf_spec in Hwf. destruct Hwf as [Hfw _]. now apply Hfw. }
  destruct (sql_insert_ok _ _ _ _ _ _ _ _ Hwff He)
    as (t' & p' & [= <-] & [= <-] & _ & _ & Hlt & ->).
  unfold new_row, pending, sequence_of.
  rewrite (dbPath_eq m w m w0 Hcwd eq_refl), Hf, Hf'. simpl. auto.
Qed.

Lemma enqueued_appends m w calls w' :
  wf m w = true -> enqueued m w calls w' ->
  wf m w' = true /\
  exists news,
    pending m w' = (pending m w ++ news)%list /\
    map content news = map (fun c => bound (snd c)) calls /\
    map col_id news
    = map (fun k => sequence_of m w + 1 + Z.of_nat k) (seq 0 (List.length calls)).
Proof.
  intros Hwf He. induction He as [w|w e x w1 rest w2 Ha He IH].
  - split; [exact Hwf|]. exists []. now rewrite List.app_nil_r.
  - destruct (addMessageToQueue_resolved _ _ _ _ _ _ Hwf Ha)
      as (_ & Hwf1 & Hp1 & Hs1 & _).
    destruct (IH Hwf1) as (Hwf2 & news & Hp2 & Hc2 & Hi2).
    split; [exact Hwf2|]. exists (new_row m w e x :: news).
    split; [|split].
    + rewrite Hp2, Hp1, <- List.app_assoc. reflexivity.
    + simpl. now rewrite Hc2.
    + cbn [List.length seq map]. rewrite Hi2, Hs1. f_equal.
      * simpl. lia.
      * rewrite <- seq_shift, map_map. apply map_ext. intros k. lia.
Qed.

Lemma limit_accepted_spec (n : Z) :
  limit_accepted n = true
  <-> - 9223372036854775808 < n < 9223372036854775808.
Proof. unfold limit_accepted. rewrite andb_true_iff, !Z.ltb_lt. tauto. Qed.

(** C1, as the code has it: whatever list(limit) resolves to is in
    ascending identifier order, holds at most [limit] messages for a limit
    that is not negative, is an initial segment of the pending messages,
    and leaves them all pending; on an initialized store it resolves to
    the first [limit] pending messages (all of them for a negative limit)
    when the limit lies strictly between -2^63 and 2^63 and is rejected
    as a datatype mismatch otherwise; and after enqueue calls that all
    resolved, the pending messages are the earlier ones followed by the
    enqueued ones in the order of the calls, with consecutive ascending
    identifiers, and list() resolves to the first 500 of them, which is
    all of them when no more than 500 are pending. *)
Theorem list_is_fifo :
  (forall e limit m w rs,
      wf m w = true ->
      fst (fst (getMessagesFromQueue e limit m w)) = Resolved rs ->
      let n := match limit with Some n => n | None => 500 end in
      StronglySorted Z.lt (map col_id rs) /\
      (0 <= n -> Z.of_nat (List.length rs) <= n) /\
      (exists rest, pending m w = (rs ++ rest)%list) /\
      pending m (snd (getMessagesFromQueue e limit m w)) = pending m w) /\
  (forall e limit m w,
      wf m w = true -> initialized m = true -> fault e = None ->
      let n := match limit with Some n => n | None => 500 end in
      (- 9223372036854775808 < n < 9223372036854775808 ->
       fst (fst (getMessagesFromQueue e limit m w))
       = Resolved (sql_limit n (pending m w))) /\
      (n <= - 9223372036854775808 \/ 9223372036854775808 <= n ->
       fst (fst (getMessagesFromQueue e limit m w))
       = Rejected (SqliteError SQLITE_MISMATCH))) /\
  (forall e m w calls w',
      wf m w = true -> initialized m = true -> fault e = None ->
      enqueued m w calls w' ->
      exists news,
        pending m w' = (pending m w ++ news)%list /\
        map content news = map (fun c => bound (snd c)) calls /\
        map col_id news
        = map (fun k => sequence_of m w + 1 + Z.of_nat k)
              (seq 0 (List.length calls)) /\
        StronglySorted Z.lt (map col_id (pending m w')) /\
        fst (fst (getMessagesFromQueue e None m w'))
        = Resolved (firstn 500 (pending m w')) /\
        (Z.of_nat (List.length (pending m w')) <= 500 ->
         fst (fst (getMessagesFromQueue e None m w'))
         = Resolved (pending m w'))).
Proof.
  split; [|split].
  - intros e limit m w rs Hwf Hr n.
    destruct (getMessagesFromQueue_resolved _ _ _ _ _ Hwf Hr) as [Hrs Hp].
    pose proof (pending_sorted m w Hwf) as Hs.
    destruct Hrs as [->| ->].
    + repeat split; [constructor|simpl; lia|now exists (pending m w)|exact Hp].
    + repeat split;
        [now apply sql_limit_sorted|now apply sql_limit_length
        |apply sql_limit_prefix|exact Hp].
  - intros e limit m w Hwf Hi Hf n. split.
    + intros Hn. apply limit_accepted_spec in Hn.
      destruct (getMessagesFromQueue_initialized m w Hwf Hi e limit Hf Hn)
        as (w' & -> & _). reflexivity.
    + intros Hn.
      assert (Hacc : limit_accepted n = false).
      { destruct (limit_accepted n) eqn:Ha; [|reflexivity].
        apply limit_accepted_spec in Ha. lia. }
      destruct limit as [k|]; [|discriminate].
      destruct (getMessagesFromQueue_mismatch m w Hwf Hi e k Hf Hacc)
        as (w' & -> & _). reflexivity.
  - intros e m w calls w' Hwf Hi Hf He.
    destruct (enqueued_appends _ _ _ _ Hwf He) as (Hwf' & news & Hp & Hc & Hid).
    destruct (getMessagesFromQueue_initialized m w' Hwf' Hi e None Hf eq_refl)
      as (w2 & Hl & _).
    exists news. repeat split; auto.
    + now apply pending_sorted.
    + now rewrite Hl.
    + intros Hlen. rewrite Hl. cbn [fst]. f_equal. unfold sql_limit.
      cbn [Z.ltb Z.compare]. apply firstn_all2. lia.
Qed.

End Fifo.

Section Limits.

Lemma list_is_fifo_witness :
  exists w',
    enqueued (fst (store_with [])) (snd (store_with []))
      (map (fun x => (calm "t", x)) three_readings) w' /\
    fst (fst (getMessagesFromQueue (calm "t") None (fst (store_with [])) w'))
    = Resolved (firstn 500 (pending (fst (store_with [])) w')) /\
    map content (pending (fst (store_with [])) w')
    = map bound three_readings.
Proof.
  assert (He : exists w',
             enqueued (fst (store_with [])) (snd (store_with []))
               (map (fun x => (calm "t", x)) three_readings) w').
  { eexists. repeat (eapply enqueued_cons; [reflexivity|]). apply enqueued_nil. }
  destruct He as [w' He]. exists w'. split; [exact He|].
  destruct list_is_fifo as (_ & _ & H).
  destruct (H (calm "t") (fst (store_with [])) (snd (store_with []))
              (map (fun x => (calm "t", x)) three_readings) w'
              eq_refl eq_refl eq_refl He)
    as (news & Hp & Hc & _ & _ & Hl & _).
  split; [exact Hl|]. rewrite Hp, map_app, Hc. reflexivity.
Defined.

(** After initialize() and 501 enqueues that all resolved, all 501
    messages are pending in the order of the calls and list() resolves to
    500 of them; and with three messages pending list(-1) resolves to all
    three, more than its limit. *)
Lemma list_default_truncates :
  map content (pending (fst (store_with (readings 501)))
                 (snd (store_with (readings 501))))
  = map bound (readings 501) /\
  Z.of_nat (List.length (readings 501)) = 501 /\
  (exists rs,
      fst (fst (getMessagesFromQueue (calm "t") None
                  (fst (store_with (readings 501)))
                  (snd (store_with (readings 501)))))
      = Resolved rs /\
      Z.of_nat (List.length rs) = 500) /\
  (exists rs,
      fst (fst (getMessagesFromQueue (calm "t") (Some (-1))
                  (fst (store_with three_readings))
                  (snd (store_with three_readings))))
      = Resolved rs /\
      Z.of_nat (List.length rs) = 3 /\ -1 < Z.of_nat (List.length rs)).
Proof.
  split; [vm_compute; reflexivity|]. split; [vm_compute; reflexivity|].
  split.
  - eexists. split; vm_compute; reflexivity.
  - eexists. split; [vm_compute; reflexivity|].
    split; vm_compute; reflexivity.
Qed.

(** C8, as the code has it: on an initialized store list(0) resolves to
    the empty sequence, list(limit) with a negative limit above -2^63
    resolves to every pending message, however many there are, and
    list(limit) with a limit of -2^63 or below is rejected as a datatype
    mismatch. *)
Theorem list_nonpositive_limit e limit m w :
  wf m w = true -> initialized m = true -> fault e = None -> limit <= 0 ->
  (- 9223372036854775808 < limit ->
   fst (fst (getMessagesFromQueue e (Some limit) m w))
   = Resolved (if limit =? 0 then [] else pending m w)) /\
  (limit <= - 9223372036854775808 ->
   fst (fst (getMessagesFromQueue e (Some limit) m w))
   = Rejected (SqliteError SQLITE_MISMATCH)).
Proof.
  intros Hwf Hi Hf Hl. split; intros Hr.
  - assert (Hacc : limit_accepted limit = true)
      by (apply limit_accepted_spec; lia).
    destruct (getMessagesFromQueue_initialized m w Hwf Hi e (Some limit) Hf Hacc)
      as (w' & -> & _). simpl. f_equal. unfold sql_limit.
    destruct (Z.eqb_spec limit 0) as [->|Hne]; [reflexivity|].
    destruct (Z.ltb_spec limit 0); [reflexivity|lia].
  - assert (Hacc : limit_accepted limit = false).
    { destruct (limit_accepted limit) eqn:Ha; [|reflexivity].
      apply limit_accepted_spec in Ha. lia. }
    destruct (getMessagesFromQueue_mismatch m w Hwf Hi e limit Hf Hacc)
      as (w' & -> & _). reflexivity.
Qed.

Lemma list_nonpositive_limit_witness :
  fst (fst (getMessagesFromQueue (calm "t") (Some (-1))
              (fst (store_with three_readings))
              (snd (store_with three_readings))))
  = Resolved (pending (fst (store_with three_readings))
                (snd (store_with three_readings))).
Proof.
  destruct (list_nonpositive_limit (calm "t") (-1)
              (fst (store_with three_readings))
              (snd (store_with three_readings))
              eq_refl eq_refl eq_refl ltac:(lia)) as [H _].
  exact (H ltac:(lia)).
Defined.

(** With 501 messages pending, list(-1) resolves to all 501 of them, more
    than the default bound of 500. *)
Lemma list_negative_limit_unbounded :
  exists rs,
    fst (fst (getMessagesFromQueue (calm "t") (Some (-1))
                (fst (store_with (readings 501)))
                (snd (store_with (readings 501)))))
    = Resolved rs /\
    List.length rs = 501%nat /\ (500 < List.length rs)%nat /\
    wf (fst (store_with (readings 501))) (snd (store_with (readings 501))) = true.
Proof.
  eexists. split; [vm_compute; reflexivity|].
  split; [vm_compute; reflexivity|]. split; [vm_compute; lia|].
  vm_compute; reflexivity.
Qed.

(** C7, as the code has it: on an initialized store whose identifiers are
    not exhausted, an enqueue the engine does not fail resolves for every
    topic string, the empty one included, and appends one row holding that
    topic; the table refuses only a NULL topic. *)
Theorem enqueue_accepts_any_topic e x m w :
  wf m w = true -> initialized m = true -> fault e = None ->
  sequence_of m w < MAX_ROWID ->
  (exists w',
      addMessageToQueue e (msg_topic x) (msg_payload x) (msg_qos x)
        (msg_retain x) m w = (Resolved tt, m, w') /\
      pending m w' = (pending m w ++ [new_row m w e x])%list /\
      col_topic (new_row m w e x) = msg_topic x) /\
  (forall now payload qos retain f,
      has_table f = true ->
      sql_insert now None payload qos retain f = inl SQLITE_CONSTRAINT).
Proof.
  intros Hwf Hi Hf Hs. split.
  - destruct (addMessageToQueue_initialized m w Hwf Hi e x Hf Hs)
      as (w' & Ha & Hp & _).
    exists w'. repeat split; auto.
  - intros now0 payload qos retain f Ht. unfold sql_insert. now rewrite Ht.
Qed.

Lemma enqueue_accepts_any_topic_witness :
  exists w',
    addMessageToQueue (calm "t") EmptyString JNull None None
      (fst (store_with three_readings)) (snd (store_with three_readings))
    = (Resolved tt, fst (store_with three_readings), w') /\
    map col_topic (pending (fst (store_with three_readings)) w')
    = ["sensors/t1"; "sensors/t2"; "sensors/t3"; EmptyString].
Proof.
  destruct (enqueue_accepts_any_topic (calm "t")
              {| msg_topic := EmptyString; msg_payload := JNull;
                 msg_qos := None; msg_retain := None |}
              (fst (store_with three_readings))
              (snd (store_with three_readings))
              eq_refl eq_refl eq_refl eq_refl) as [(w' & Ha & Hp & _) _].
  exists w'. split; [exact Ha|]. rewrite Hp. reflexivity.
Defined.

(** On a new, initialized store an enqueue with the empty topic resolves
    and the row is there, with the empty topic. *)
Lemma empty_topic_is_persisted :
  pending (fst (store_with [])) (snd (store_with [])) = [] /\
  fst (fst (addMessageToQueue (calm "t") EmptyString (JObj [("v", JNum 42)])
              (Some 1) (Some false)
              (fst (store_with [])) (snd (store_with []))))
  = Resolved tt /\
  map col_topic
    (pending (fst (store_with []))
       (snd (addMessageToQueue (calm "t") EmptyString (JObj [("v", JNum 42)])
               (Some 1) (Some false)
               (fst (store_with [])) (snd (store_with [])))))
  = [EmptyString].
Proof. vm_compute. repeat split. Qed.

End Limits.

(* ================================================================= *)
(** ** Identifiers *)

Section Identifiers.

Lemma fresh_ids_incl (before after : list row) :
  incl after before -> fresh_ids before after = [].
Proof.
  intros Hin. unfold fresh_ids.
  replace (filter _ after) with (@nil row); [reflexivity|].
  symmetry. induction after as [|r after IH]; [reflexivity|]. simpl.
  assert (Hm : mem_id (col_id r) (map col_id before) = true).
  { apply mem_id_In, in_map, Hin. now left. }
  rewrite Hm. simpl. apply IH. intros r' Hr'. apply Hin. now right.
Qed.

Lemma fresh_ids_snoc (before : list row) (r : row) :
  Forall (fun r' => col_id r' < col_id r) before ->
  fresh_ids before (before ++ [r]) = [col_id r].
Proof.
  intros Hall. unfold fresh_ids. rewrite filter_app.
  replace (filter _ before) with (@nil row).
  - simpl. destruct (mem_id (col_id r) (map col_id before)) eqn:Hm;
      [|reflexivity].
    apply mem_id_In, in_map_iff in Hm. destruct Hm as (r' & Heq & Hin).
    rewrite Forall_forall in Hall. specialize (Hall r' Hin). lia.
  - symmetry. pose proof (fresh_ids_incl before before (incl_refl _)) as H.
    unfold fresh_ids in H. now apply map_eq_nil in H.
Qed.

(** One call either adds no row and does not lower the sequence entry, or
    appends one row whose identifier is the entry plus one, which becomes
    the entry. *)
Lemma file_step_ids now o o' :
  match o with Some f => wf_file f = true | None => True end ->
  file_step now o o' ->
  (incl (rows_of o') (rows_of o) /\ entry_of o <= entry_of o') \/
  (exists r,
      rows_of o' = (rows_of o ++ [r])%list /\
      col_id r = entry_of o + 1 /\ entry_of o' = entry_of o + 1).
Proof.
  intros Hwf Hs. destruct Hs as [| |f' Hc|q f a f' -> He].
  - left. split; [apply incl_refl|lia].
  - left. destruct o as [f|]; simpl; split;
      try apply incl_refl; lia.
  - left. unfold sql_create_table in Hc. injection Hc as <-.
    destruct o as [f|]; simpl.
    + destruct (has_table f) eqn:Ht; [split; [apply incl_refl|lia]|].
      apply wf_file_spec in Hwf. destruct Hwf as (_ & _ & _ & Hno).
      destruct (Hno Ht) as [-> ->]. simpl. split; [apply incl_refl|lia].
    + split; [apply incl_refl|lia].
  - simpl in *. destruct q; simpl in He.
    + left. unfold sql_create_table in He. injection He as _ <-.
      destruct (has_table f) eqn:Ht; [split; [apply incl_refl|lia]|].
      apply wf_file_spec in Hwf. destruct Hwf as (_ & _ & _ & Hno).
      destruct (Hno Ht) as [-> ->]. simpl. split; [apply incl_refl|lia].
    + left. unfold sql_count in He. destruct (has_table f); [|discriminate].
      injection He as _ <-. split; [apply incl_refl|lia].
    + right. destruct (sql_insert_ok _ _ _ _ _ _ _ _ Hwf He)
        as (t' & p' & _ & _ & _ & _ & _ & ->).
      eexists. simpl. repeat split.
    + left. unfold sql_delete_min in He.
      destruct (has_table f); [|discriminate]. injection He as _ <-. simpl.
      split; [|lia]. destruct (min_id (rows f)); [|apply incl_refl].
      intros r Hr. apply filter_In in Hr. tauto.
    + left. unfold sql_select_limit in He.
      destruct (has_table f); [|discriminate].
      destruct (limit_accepted limit); [|discriminate].
      injection He as _ <-. split; [apply incl_refl|lia].
    + left. unfold sql_delete_in in He.
      destruct (SQLITE_MAX_VARIABLE_NUMBER <? _); [discriminate|].
      destruct (has_table f); [|discriminate]. injection He as _ <-. simpl.
      split; [|lia]. intros r Hr. apply filter_In in Hr. tauto.
    + left. unfold sql_delete_id in He.
      destruct (has_table f); [|discriminate]. injection He as _ <-. simpl.
      split; [|lia]. intros r Hr. apply filter_In in Hr. tauto.
Qed.

Lemma step_ids e r m w resp m' w' :
  wf m w = true -> step e r m w = (resp, m', w') ->
  wf m' w' = true /\
  sequence_of m w <= sequence_of m' w' /\
  (fresh_ids (pending m w) (pending m' w') = [] \/
   fresh_ids (pending m w) (pending m' w') = [sequence_of m' w'] /\
   sequence_of m w < sequence_of m' w').
Proof.
  intros Hwf Hs. destruct (step_file _ _ _ _ _ _ _ Hwf Hs) as (Hwf' & Hp & Hfs).
  split; [exact Hwf'|].
  assert (Hwfo : match files w (dbPath w m) with
                 | Some f => wf_file f = true | None => True end).
  { apply wf_spec in Hwf. destruct Hwf as [Hfw _].
    destruct (files w (dbPath w m)); auto. }
  assert (Hall : Forall (fun r' => col_id r' <= sequence_of m w) (pending m w)).
  { unfold pending, sequence_of. destruct (files w (dbPath w m)) as [f|];
      [|constructor].
    apply wf_file_spec in Hwfo. destruct Hwfo as (_ & Hall & _).
    eapply Forall_impl; [|exact Hall]. simpl. intros; lia. }
  destruct (file_step_ids _ _ _ Hwfo Hfs) as [[Hin Hle]|(r0 & Hr & Hid & Hseq)];
    unfold pending, sequence_of in *; rewrite Hp;
    fold (rows_of (files w (dbPath w m))) in *;
    fold (rows_of (files w' (dbPath w m)));
    fold (entry_of (files w (dbPath w m))) in *;
    fold (entry_of (files w' (dbPath w m))).
  - split; [exact Hle|left]. now apply fresh_ids_incl.
  - split; [lia|right]. rewrite Hr, Hseq, <- Hid. split; [|lia].
    apply fresh_ids_snoc. eapply Forall_impl; [|exact Hall].
    simpl. intros; lia.
Qed.

Lemma assigned_ids_ascend calls : forall m w,
  wf m w = true ->
  StronglySorted Z.lt (assigned_ids calls m w) /\
  Forall (fun i => sequence_of m w < i) (assigned_ids calls m w).
Proof.
  induction calls as [|[e r] calls IH]; intros m w Hwf; simpl.
  - split; constructor.
  - destruct (step e r m w) as [[resp m'] w'] eqn:Hs.
    destruct (step_ids _ _ _ _ _ _ _ Hwf Hs) as (Hwf' & Hle & Hfresh).
    destruct (IH m' w' Hwf') as [Hsorted Hall].
    destruct Hfresh as [-> |[-> Hlt]]; simpl.
    + split; [exact Hsorted|].
      eapply Forall_impl; [|exact Hall]. simpl. intros; lia.
    + split; [constructor; assumption|].
      constructor; [exact Hlt|].
      eapply Forall_impl; [|exact Hall]. simpl. intros; lia.
Qed.

Lemma sorted_NoDup (l : list Z) : StronglySorted Z.lt l -> NoDup l.
Proof.
  induction 1 as [|x l Hs IH Hall]; constructor; auto.
  intros Hin. rewrite Forall_forall in Hall. specialize (Hall x Hin). lia.
Qed.

(** C3: along every run of a store, from its creation on and through any
    close and initialize in between, the identifiers assigned are strictly
    increasing in the order of the calls, so none is assigned twice; and
    an enqueue that resolves assigns exactly one identifier, larger than
    that of every message pending before it and than the sequence entry. *)
Theorem identifiers_strictly_increase :
  (forall b cwd calls,
      StronglySorted Z.lt
        (assigned_ids calls (SQLiteQueueManager_constructor b) (new_world cwd))) /\
  (forall b cwd calls,
      NoDup (assigned_ids calls (SQLiteQueueManager_constructor b) (new_world cwd))) /\
  (forall e x m w m' w',
      wf m w = true ->
      addMessageToQueue e (msg_topic x) (msg_payload x) (msg_qos x)
        (msg_retain x) m w = (Resolved tt, m', w') ->
      fresh_ids (pending m w) (pending m' w') = [sequence_of m w + 1] /\
      sequence_of m' w' = sequence_of m w + 1 /\
      Forall (fun r => col_id r < sequence_of m w + 1) (pending m w)).
Proof.
  split; [|split].
  - intros b cwd0 calls. now apply assigned_ids_ascend, wf_new.
  - intros b cwd0 calls. now apply sorted_NoDup, assigned_ids_ascend, wf_new.
  - intros e x m w m' w' Hwf Ha.
    destruct (addMessageToQueue_resolved _ _ _ _ _ _ Hwf Ha)
      as (-> & Hwf' & Hp & Hs & _).
    assert (Hall : Forall (fun r => col_id r < sequence_of m w + 1) (pending m w)).
    { unfold pending, sequence_of. apply wf_spec in Hwf. destruct Hwf as [Hfw _].
      destruct (files w (dbPath w m)) as [f|]; [|constructor].
      specialize (Hfw f eq_refl). apply wf_file_spec in Hfw.
      destruct Hfw as (_ & Hall & _).
      eapply Forall_impl; [|exact Hall]. simpl. intros; lia. }
    split; [|split; [exact Hs|exact Hall]].
    rewrite Hp. now rewrite fresh_ids_snoc.
Qed.

Lemma identifiers_strictly_increase_witness :
  fresh_ids
    (pending (fst (store_with three_readings)) (snd (store_with three_readings)))
    (pending (fst (store_with three_readings))
       (snd (addMessageToQueue (calm "t") "sensors/t4" (JObj [("v", JNum 45)])
               (Some 1) (Some false)
               (fst (store_with three_readings))
               (snd (store_with three_readings)))))
  = [4].
Proof.
  destruct identifiers_strictly_increase as (_ & _ & H).
  destruct (H (calm "t") (reading "sensors/t4" 45)
              (fst (store_with three_readings))
              (snd (store_with three_readings))
              (fst (store_with three_readings))
              (snd (addMessageToQueue (calm "t") "sensors/t4"
                      (JObj [("v", JNum 45)]) (Some 1) (Some false)
                      (fst (store_with three_readings))
                      (snd (store_with three_readings))))
              eq_refl eq_refl) as (Hf & _).
  exact Hf.
Defined.

(** Identifiers 1 and 2 are assigned and both messages removed; after a
    close, during which an enqueue is rejected, and a new initialize the
    next identifier is 3. *)
Example identifiers_across_reopen :
  assigned_ids reopened_run (SQLiteQueueManager_constructor "b1")
    (new_world "/srv/node-red") = [1; 2; 3] /\
  map col_id
    (let (m, w) := run reopened_run (SQLiteQueueManager_constructor "b1")
                     (new_world "/srv/node-red") in pending m w) = [3].
Proof. vm_compute. split; reflexivity. Qed.

End Identifiers.

(* ================================================================= *)
(** ** The payload text gives the payload back *)

Section Text.

Lemma append_assoc (a b c : string) : (a ++ b) ++ c = a ++ (b ++ c).
Proof. induction a as [|x a IH]; simpl; [reflexivity|now rewrite IH]. Qed.

Lemma append_empty (a : string) : a ++ EmptyString = a.
Proof. induction a as [|x a IH]; simpl; [reflexivity|now rewrite IH]. Qed.

Lemma length_append (a b : string) :
  String.length (a ++ b) = (String.length a + String.length b)%nat.
Proof. induction a as [|x a IH]; simpl; [reflexivity|now rewrite IH]. Qed.

(** One escaped code unit reads back as that code unit. *)
Lemma parse_escape_char (c : ascii) (tail : string) :
  parse_chars (escape_char c ++ tail) = cons_char c (parse_chars tail).
Proof.
  destruct c as [[] [] [] [] [] [] [] []]; reflexivity.
Qed.

Lemma parse_chars_escape (s rest : string) :
  parse_chars (escape s ++ String "034" rest) = Some (s, rest).
Proof.
  induction s as [|c s IH]; [reflexivity|].
  cbn [escape]. rewrite append_assoc, parse_escape_char, IH. reflexivity.
Qed.

Lemma quote_append (s rest : string) :
  quote s ++ rest = String "034" (escape s ++ String "034" rest).
Proof. unfold quote. cbn [append]. now rewrite append_assoc. Qed.

Lemma delimited_cases (rest : string) :
  delimited rest = true ->
  rest = EmptyString \/ exists r, rest = String "," r \/ rest = String "]" r
                         \/ rest = String "}" r.
Proof.
  intros H. destruct rest as [|c r]; [now left|right]. unfold delimited in H.
  rewrite !orb_true_iff, !Ascii.eqb_eq in H.
  destruct H as [[-> | ->]| ->]; eauto.
Qed.

Lemma scan_digits_print (u : uint) (rest : string) :
  delimited rest = true ->
  scan_digits (NilEmpty.string_of_uint u ++ rest) = (u, rest).
Proof.
  intros H. induction u; cbn [NilEmpty.string_of_uint append];
    try (cbn [scan_digits]; rewrite IHu; reflexivity).
  destruct (delimited_cases rest H) as [->|(r & [->|[->| ->]])]; reflexivity.
Qed.

Lemma delimited_no_fraction (rest : string) :
  delimited rest = true -> starts_fraction rest = false.
Proof.
  intros H. destruct (delimited_cases rest H) as [->|(r & [->|[->| ->]])];
    reflexivity.
Qed.

Lemma nzhead_no_leading_zero (d d' : uint) : nzhead d <> D0 d'.
Proof. induction d; simpl; congruence. Qed.

Lemma to_uint_shape (p : positive) :
  Pos.to_uint p <> Nil /\ leading_zero (Pos.to_uint p) = false.
Proof.
  split; [apply Unsigned.to_uint_nonnil|].
  assert (Hn : unorm (Pos.to_uint p) = Pos.to_uint p).
  { rewrite <- Unsigned.to_of, Unsigned.of_to. reflexivity. }
  destruct (Pos.to_uint p) as [|d| | | | | | | | |]; try reflexivity.
  destruct d; try reflexivity; exfalso; unfold unorm in Hn; simpl in Hn;
    match type of Hn with
    | match nzhead ?x with _ => _ end = _ =>
        pose proof (nzhead_no_leading_zero x) as Hz;
        destruct (nzhead x); try discriminate; eapply Hz; eauto
    | _ => discriminate
    end.
Qed.

Lemma parse_digits_print (u : uint) (rest : string) :
  u <> Nil -> leading_zero u = false -> delimited rest = true ->
  parse_digits (NilEmpty.string_of_uint u ++ rest) = Some (u, rest).
Proof.
  intros Hn Hz Hd. unfold parse_digits.
  rewrite (scan_digits_print u rest Hd), Hz, (delimited_no_fraction rest Hd).
  destruct u; congruence.
Qed.

End Text.

Section RoundTrip.

Lemma size_positive (v : json) : (1 <= size v)%nat.
Proof. destruct v; simpl; lia. Qed.

(** A number in the text is read by [parse_number]. *)
Lemma number_dispatch_pos (n : nat) (u : uint) (rest : string) :
  u <> Nil ->
  parse_value (S n) (NilEmpty.string_of_uint u ++ rest)
  = match parse_digits (NilEmpty.string_of_uint u ++ rest) with
    | Some (u', r) => Some (JNum (Z.of_int (Pos u')), r)
    | None => None
    end.
Proof. destruct u; [congruence|reflexivity..]. Qed.

Lemma number_dispatch_neg (n : nat) (text : string) :
  parse_value (S n) (String "-" text)
  = match parse_digits text with
    | Some (u', r) => Some (JNum (Z.of_int (Neg u')), r)
    | None => None
    end.
Proof. reflexivity. Qed.

Lemma parse_value_number (n : nat) (z : Z) (rest : string) :
  delimited rest = true ->
  parse_value (S n) (number_to_string z ++ rest) = Some (JNum z, rest).
Proof.
  intros Hd. unfold number_to_string. destruct z as [|p|p].
  - change (NilZero.string_of_int (Z.to_int 0) ++ rest)
      with (NilEmpty.string_of_uint (D0 Nil) ++ rest).
    rewrite number_dispatch_pos by discriminate.
    now rewrite parse_digits_print.
  - destruct (to_uint_shape p) as [Hn Hz].
    replace (NilZero.string_of_int (Z.to_int (Z.pos p)))
      with (NilEmpty.string_of_uint (Pos.to_uint p)).
    2: { cbn [Z.to_int NilZero.string_of_int]. unfold NilZero.string_of_uint.
         destruct (Pos.to_uint p); congruence. }
    rewrite number_dispatch_pos by exact Hn.
    rewrite parse_digits_print by assumption.
    do 2 f_equal. f_equal. exact (DecimalZ.of_to (Z.pos p)).
  - destruct (to_uint_shape p) as [Hn Hz].
    replace (NilZero.string_of_int (Z.to_int (Z.neg p)))
      with (String "-" (NilEmpty.string_of_uint (Pos.to_uint p))).
    2: { cbn [Z.to_int NilZero.string_of_int]. unfold NilZero.string_of_uint.
         destruct (Pos.to_uint p); congruence. }
    cbn [append]. rewrite number_dispatch_neg.
    rewrite parse_digits_print by assumption.
    do 2 f_equal. f_equal. exact (DecimalZ.of_to (Z.neg p)).
Qed.

(** The first character of a printed value is neither white space nor a
    closing bracket. *)
Lemma stringify_lead (v : json) (tail : string) :
  exists c s,
    stringify v ++ tail = String c s /\ is_ws c = false /\
    (c =? "]")%char = false.
Proof.
  destruct v as [|[]|z|s|vs|ms]; try (eexists _, _; repeat split; reflexivity).
  - unfold stringify, number_to_string. destruct z as [|p|p];
      try (eexists _, _; repeat split; reflexivity).
    cbn [Z.to_int NilZero.string_of_int]. unfold NilZero.string_of_uint.
    destruct (to_uint_shape p) as [Hn _].
    destruct (Pos.to_uint p); try congruence;
      eexists _, _; repeat split; reflexivity.
Qed.

Lemma parse_array_nonempty (n : nat) (c : ascii) (s : string) :
  is_ws c = false -> (c =? "]")%char = false ->
  parse_value (S n) (String "[" (String c s))
  = match parse_elements n (String c s) with
    | Some (vs, r') => Some (JArr vs, r')
    | None => None
    end.
Proof.
  intros Hws Hc. cbn [parse_value].
  change (skip_ws (String "[" (String c s))) with (String "[" (String c s)).
  cbv iota. change ("[" =? "n")%char with false.
  change ("[" =? "t")%char with false. change ("[" =? "f")%char with false.
  change ("[" =? "034")%char with false. change ("[" =? "[")%char with true.
  cbv iota. cbn [skip_ws]. rewrite Hws, Hc. reflexivity.
Qed.

Lemma parse_object_nonempty (n : nat) (tail : string) :
  parse_value (S n) (String "{" (String "034" tail))
  = match parse_members n (String "034" tail) with
    | Some (ms, r') => Some (JObj ms, r')
    | None => None
    end.
Proof. reflexivity. Qed.

Lemma parse_elements_print (l : list json) :
  l <> [] -> Forall reads_back l ->
  forall fuel rest,
    (S (fold_right (fun x n => (size x + n)%nat) O l) <= fuel)%nat ->
    parse_elements fuel (stringify_elements l ++ rest) = Some (l, rest).
Proof.
  induction l as [|v l IH]; [congruence|]. intros _ Hall fuel rest Hfuel.
  inversion Hall as [|? ? Hv Hl]; subst.
  destruct fuel as [|k]; [lia|]. cbn [fold_right] in Hfuel.
  pose proof (size_positive v) as Hpos.
  cbn [stringify_elements parse_elements]. rewrite append_assoc.
  destruct l as [|v2 l2].
  - cbn [append]. rewrite (Hv k (String "]" rest)) by (simpl in *; auto; lia).
    reflexivity.
  - cbn [append].
    rewrite (Hv k (String "," (stringify_elements (v2 :: l2) ++ rest)))
      by (simpl in *; auto; lia).
    cbn [skip_ws]. change (is_ws ",") with false. cbv iota.
    change ("," =? ",")%char with true. cbv iota.
    rewrite (IH ltac:(discriminate) Hl k rest) by (simpl in *; lia).
    reflexivity.
Qed.

Lemma lookup_absent (k : string) (ms : list (string * json)) :
  existsb (String.eqb k) (map fst ms) = false -> lookup k ms = None.
Proof.
  induction ms as [|[k' v] ms IH]; [reflexivity|]. simpl.
  intros H. apply orb_false_iff in H. destruct H as [-> H]. auto.
Qed.

Lemma parse_members_print (l : list (string * json)) :
  l <> [] -> distinct (map fst l) = true ->
  Forall (fun kv => reads_back (snd kv)) l ->
  forall fuel rest,
    (S (fold_right (fun kv n => (size (snd kv) + n)%nat) O l) <= fuel)%nat ->
    parse_members fuel (stringify_members l ++ rest) = Some (l, rest).
Proof.
  induction l as [|[k v] l IH]; [congruence|].
  intros _ Hd Hall fuel rest Hfuel.
  inversion Hall as [|? ? Hv Hl]; subst. cbn [snd] in Hv.
  cbn [map fst distinct] in Hd. apply andb_true_iff in Hd.
  destruct Hd as [Hk Hd]. apply negb_true_iff in Hk.
  destruct fuel as [|n]; [lia|]. cbn [fold_right snd] in Hfuel.
  pose proof (size_positive v) as Hpos.
  cbn [stringify_members]. rewrite append_assoc, quote_append.
  cbn [parse_members skip_ws]. change (is_ws "034") with false. cbv iota.
  change ("034" =? "034")%char with true. cbv iota.
  cbn [append]. rewrite parse_chars_escape.
  cbn [skip_ws]. change (is_ws ":") with false. cbv iota.
  change (":" =? ":")%char with true. cbv iota.
  rewrite append_assoc.
  destruct l as [|kv2 l2].
  - cbn [append]. rewrite (Hv n (String "}" rest)) by (simpl in *; auto; lia).
    reflexivity.
  - cbn [append].
    rewrite (Hv n (String "," (stringify_members (kv2 :: l2) ++ rest)))
      by (simpl in *; auto; lia).
    cbn [skip_ws]. change (is_ws ",") with false. cbv iota.
    change ("," =? ",")%char with true. cbv iota.
    rewrite (IH ltac:(discriminate) Hd Hl n rest) by (simpl in *; lia).
    unfold define_property. now rewrite (lookup_absent k (kv2 :: l2) Hk).
Qed.

Lemma stringify_array (vs : list json) :
  stringify (JArr vs) = String "[" (stringify_elements vs).
Proof. reflexivity. Qed.

Lemma stringify_object (ms : list (string * json)) :
  stringify (JObj ms) = String "{" (stringify_members ms).
Proof. reflexivity. Qed.

Lemma parse_value_stringify (v : json) :
  json_compatible v = true -> reads_back v.
Proof.
  induction v as [|b|z|s|vs IH|ms IH] using json_induction;
    intros Hc fuel rest Hfuel Hd;
    (destruct fuel as [|n]; [pose proof (size_positive JNull); simpl in *; lia|]).
  - reflexivity.
  - destruct b; reflexivity.
  - now apply parse_value_number.
  - cbn [stringify]. rewrite quote_append. cbn [parse_value skip_ws].
    change (is_ws "034") with false. cbv iota.
    change ("034" =? "n")%char with false. change ("034" =? "t")%char with false.
    change ("034" =? "f")%char with false. change ("034" =? "034")%char with true.
    cbv iota. now rewrite parse_chars_escape.
  - rewrite stringify_array. cbn [append].
    destruct vs as [|v vs]; [reflexivity|].
    assert (Hall : Forall reads_back (v :: vs)).
    { cbn [json_compatible] in Hc. rewrite forallb_forall in Hc.
      rewrite Forall_forall in *. intros x Hx. apply IH; auto. }
    destruct (stringify_lead v
                (match vs with [] => "]" | _ :: _ => String "," (stringify_elements vs) end
                 ++ rest)) as (c & s & Heq & Hws & Hcb).
    assert (Htext : stringify_elements (v :: vs) ++ rest = String c s).
    { cbn [stringify_elements]. now rewrite append_assoc. }
    rewrite Htext, (parse_array_nonempty n c s Hws Hcb), <- Htext.
    rewrite (parse_elements_print (v :: vs) ltac:(discriminate) Hall n rest);
      [reflexivity|]. cbn [size] in Hfuel. lia.
  - rewrite stringify_object. cbn [append].
    destruct ms as [|[k v] ms]; [reflexivity|].
    cbn [json_compatible] in Hc. apply andb_true_iff in Hc.
    destruct Hc as [Hdist Hc].
    assert (Hall : Forall (fun kv => reads_back (snd kv)) ((k, v) :: ms)).
    { rewrite forallb_forall in Hc.
      rewrite Forall_forall in *. intros x Hx. apply IH; auto. }
    assert (Htext : exists tail,
               stringify_members ((k, v) :: ms) ++ rest = String "034" tail).
    { cbn [stringify_members]. rewrite append_assoc, quote_append. eauto. }
    destruct Htext as [tail Htext].
    rewrite Htext, parse_object_nonempty, <- Htext.
    rewrite (parse_members_print ((k, v) :: ms) ltac:(discriminate) Hdist Hall
               n rest); [reflexivity|]. cbn [size] in Hfuel. lia.
Qed.

End RoundTrip.

Section Payload.

Lemma stringify_nonempty (v : json) : (1 <= String.length (stringify v))%nat.
Proof.
  destruct (stringify_lead v EmptyString) as (c & s & Heq & _).
  rewrite append_empty in Heq. rewrite Heq. simpl. lia.
Qed.

Lemma elements_length (l : list json) :
  Forall (fun v => (size v <= String.length (stringify v))%nat) l ->
  (S (fold_right (fun x n => (size x + n)%nat) O l)
   <= String.length (stringify_elements l))%nat.
Proof.
  induction 1 as [|v l Hv Hl IH]; [simpl; lia|].
  cbn [stringify_elements fold_right]. rewrite length_append.
  destruct l; simpl in *; lia.
Qed.

Lemma members_length (l : list (string * json)) :
  Forall (fun kv => (size (snd kv) <= String.length (stringify (snd kv)))%nat) l ->
  (S (fold_right (fun kv n => (size (snd kv) + n)%nat) O l)
   <= String.length (stringify_members l))%nat.
Proof.
  induction 1 as [|[k v] l Hv Hl IH]; [simpl; lia|].
  cbn [stringify_members fold_right snd] in *. rewrite length_append.
  cbn [String.length]. rewrite length_append.
  destruct l; simpl in *; lia.
Qed.

Lemma size_le_length (v : json) : (size v <= String.length (stringify v))%nat.
Proof.
  induction v as [|b|z|s|vs IH|ms IH] using json_induction;
    try apply stringify_nonempty.
  - rewrite stringify_array. cbn [size String.length].
    pose proof (elements_length vs IH). lia.
  - rewrite stringify_object. cbn [size String.length].
    pose proof (members_length ms IH). lia.
Qed.

(** JSON.parse(JSON.stringify(v)) is v. *)
Lemma JSON_parse_stringify (v : json) :
  json_compatible v = true -> JSON_parse (stringify v) = Some v.
Proof.
  intros Hc. unfold JSON_parse.
  pose proof (parse_value_stringify v Hc (S (String.length (stringify v))) EmptyString
                ltac:(pose proof (size_le_length v); lia) eq_refl) as H.
  rewrite append_empty in H. rewrite H. reflexivity.
Qed.

(** Distinct payloads have distinct texts. *)
Lemma stringify_injective (u v : json) :
  json_compatible u = true -> json_compatible v = true ->
  stringify u = stringify v -> u = v.
Proof.
  intros Hu Hv Heq. apply JSON_parse_stringify in Hu, Hv.
  rewrite Heq in Hu. congruence.
Qed.




End Payload.

(* ================================================================= *)
(** ** Removing one message by its identifier *)

Section RemoveById.

Lemma sorted_id_unique (l : list row) (r r' : row) :
  StronglySorted Z.lt (map col_id l) ->
  In r l -> In r' l -> col_id r = col_id r' -> r = r'.
Proof.
  induction l as [|x l IH]; intros Hs Hr Hr' Heq; [contradiction|].
  inversion Hs as [|? ? Hs' Hall]; subst. rewrite Forall_forall in Hall.
  destruct Hr as [->|Hr], Hr' as [->|Hr']; auto.
  - specialize (Hall _ (in_map col_id _ _ Hr')). lia.
  - specialize (Hall _ (in_map col_id _ _ Hr)). lia.
Qed.

Lemma filter_out_absent (i : Z) (l : list row) :
  ~ In i (map col_id l) -> filter (fun r => negb (col_id r =? i)) l = l.
Proof.
  intros Hn. apply forallb_filter_id, forallb_forall. intros r Hr.
  destruct (Z.eqb_spec (col_id r) i) as [<-|]; [|reflexivity].
  exfalso. apply Hn. now apply in_map.
Qed.

Lemma filter_out_present (l : list row) (r : row) :
  StronglySorted Z.lt (map col_id l) -> In r l ->
  S (List.length (filter (fun r' => negb (col_id r' =? col_id r)) l))
  = List.length l.
Proof.
  induction l as [|x l IH]; intros Hs Hr; [contradiction|].
  inversion Hs as [|? ? Hs' Hall]; subst. rewrite Forall_forall in Hall.
  cbn [filter]. destruct Hr as [->|Hr].
  - rewrite Z.eqb_refl. cbn [negb List.length]. f_equal.
    rewrite filter_out_absent; [reflexivity|].
    intros Hin. specialize (Hall _ Hin). lia.
  - specialize (Hall _ (in_map col_id _ _ Hr)).
    destruct (Z.eqb_spec (col_id x) (col_id r)); [lia|].
    cbn [negb List.length]. f_equal. now apply IH.
Qed.

(** X1: on an initialized store removeById(i) resolves and leaves the
    pending messages whose identifier is not i, in their order: all of
    them when no pending message has identifier i, and all but one, the
    message with that identifier, when one has. *)
Theorem removeById_deletes_one e i m w :
  wf m w = true -> initialized m = true -> fault e = None ->
  exists w',
    removeMessageFromQueue e i m w = (Resolved tt, m, w') /\
    pending m w' = filter (fun r => negb (col_id r =? i)) (pending m w) /\
    (~ In i (map col_id (pending m w)) -> pending m w' = pending m w) /\
    (forall r, In r (pending m w) -> col_id r = i ->
       S (List.length (pending m w')) = List.length (pending m w) /\
       (forall r', In r' (pending m w') <-> In r' (pending m w) /\ r' <> r)).
Proof.
  intros Hwf Hi Hf.
  destruct (removeMessageFromQueue_initialized m w Hwf Hi e i Hf)
    as (w' & Hr & Hp).
  pose proof (pending_sorted m w Hwf) as Hs.
  exists w'. split; [exact Hr|]. split; [exact Hp|]. split.
  - intros Hn. rewrite Hp. now apply filter_out_absent.
  - intros r Hin <-. rewrite Hp. split; [now apply filter_out_present|].
    intros r'. rewrite filter_In, negb_true_iff, Z.eqb_neq. split.
    + intros [Hin' Hne]. split; [exact Hin'|]. congruence.
    + intros [Hin' Hne]. split; [exact Hin'|]. intros Heq. apply Hne.
      now apply (sorted_id_unique (pending m w)).
Qed.

Lemma removeById_deletes_one_witness :
  exists w',
    removeMessageFromQueue (calm "t") 2 (fst (store_with three_readings))
      (snd (store_with three_readings))
    = (Resolved tt, fst (store_with three_readings), w') /\
    map col_id (pending (fst (store_with three_readings)) w') = [1; 3].
Proof.
  destruct (removeById_deletes_one (calm "t") 2
              (fst (store_with three_readings))
              (snd (store_with three_readings)) eq_refl eq_refl eq_refl)
    as (w' & Hr & Hp & _).
  exists w'. split; [exact Hr|]. rewrite Hp. reflexivity.
Defined.

End RemoveById.

(* ================================================================= *)
(** ** Initialize, close and the stored messages *)

Section Lifecycle.

Lemma rows_of_created (f f' : db_file) :
  wf_file f = true -> sql_create_table f = inr (tt, f') ->
  rows f' = rows f /\ sequence f' = sequence f.
Proof.
  intros Hwf Hc. unfold sql_create_table in Hc. injection Hc as <-.
  destruct (has_table f) eqn:Ht; [auto|].
  apply wf_file_spec in Hwf. destruct Hwf as (_ & _ & _ & Hno).
  destruct (Hno Ht) as [-> ->]. auto.
Qed.

Lemma initializeDatabase_keeps_rows e m w p m' w' :
  wf m w = true -> initializeDatabase e m w = (p, m', w') ->
  pending m' w' = pending m w /\ sequence_of m' w' = sequence_of m w.
Proof.
  intros Hwf Hinit. destruct (initialized m) eqn:Hi.
  - unfold initialized in Hi. unfold initializeDatabase in Hinit.
    destruct (dbInitialized m), (db m); try discriminate.
    injection Hinit as <- <- <-. auto.
  - pose proof (wf_opened_file _ _ Hwf) as Hof.
    destruct (initializeDatabase_cases _ _ _ _ _ _ Hi Hinit) as [Hcwd Hc].
    unfold pending, sequence_of.
    destruct Hc as [(-> & -> & Hf)|[(c & _ & -> & -> & Hf)|
      [(c & _ & -> & -> & Hf)|(f' & _ & _ & -> & -> & Hct & Hf)]]];
      match goal with
      | |- context [dbPath w' ?m0] =>
          rewrite (dbPath_eq m w m0 w' Hcwd eq_refl)
      end; rewrite Hf; auto.
    + unfold opened_file. destruct (files w (dbPath w m)); auto.
    + destruct (rows_of_created _ _ Hof Hct) as [-> ->].
      unfold opened_file. destruct (files w (dbPath w m)); auto.
Qed.

(** X2: whatever its outcome, initialize() leaves the pending messages and
    the sqlite_sequence entry of the broker's table as they were: creating
    the file or the table adds and drops nothing. *)
Theorem initialize_preserves_pending e m w p m' w' :
  wf m w = true -> initializeDatabase e m w = (p, m', w') ->
  pending m' w' = pending m w /\ sequence_of m' w' = sequence_of m w.
Proof. exact (initializeDatabase_keeps_rows e m w p m' w'). Qed.

Lemma initialize_preserves_pending_witness :
  pending
    (snd (fst (initializeDatabase disk_full
                 (set_dbInitialized false (set_db None (fst (store_with three_readings))))
                 (snd (store_with three_readings)))))
    (snd (initializeDatabase disk_full
            (set_dbInitialized false (set_db None (fst (store_with three_readings))))
            (snd (store_with three_readings))))
  = pending (fst (store_with three_readings)) (snd (store_with three_readings)).
Proof.
  destruct (initializeDatabase disk_full
              (set_dbInitialized false (set_db None (fst (store_with three_readings))))
              (snd (store_with three_readings))) as [[p m'] w'] eqn:Hi.
  destruct (initialize_preserves_pending disk_full
              (set_dbInitialized false (set_db None (fst (store_with three_readings))))
              (snd (store_with three_readings)) p m' w' eq_refl Hi) as [Hp _].
  exact Hp.
Defined.

Lemma initializeDatabase_calm e m w :
  wf m w = true -> nothing_fails e = true ->
  exists h m' w',
    initializeDatabase e m w = (Resolved h, m', w') /\
    db m' = Some h /\ is_open h = true /\ filename h = dbPath w m /\
    initialized m' = true /\ brokerId m' = brokerId m.
Proof.
  intros Hwf He. unfold nothing_fails in He.
  apply andb_true_iff in He. destruct He as [He Hf].
  apply andb_true_iff in He. destruct He as [Hmk Ho].
  apply negb_true_iff in Hmk.
  destruct (open_fails e) eqn:Hoe; [discriminate|].
  destruct (fault e) eqn:Hfe; [discriminate|].
  destruct (initialized m) eqn:Hi.
  - destruct (initialized_inv _ _ Hwf Hi) as (h & f & Hdb & Hop & Hn & _).
    exists h, m, w. split; [|repeat split; auto].
    unfold initialized in Hi. unfold initializeDatabase.
    rewrite Hdb in *. now destruct (dbInitialized m).
  - unfold initialized in Hi. unfold initializeDatabase, query.
    rewrite Hmk, Hoe, Hfe. cbn [is_open filename].
    destruct (dbInitialized m), (db m); try discriminate;
      cbn [data_dir logged]; destruct (data_dir w);
      cbn [files logged make_dir write_file];
      destruct (files w (dbPath w m)) as [f|] eqn:Hfile;
      cbn [files logged make_dir write_file];
      rewrite ?Hfile, ?String.eqb_refl; cbn [exec sql_create_table];
      eexists _, _, _; repeat split.
Qed.

(** X3: from any state a run can reach, an initialize() that meets no
    failure resolves to an open handle on the broker's file and leaves the
    store initialized; this holds for a new store, for a closed one and
    for one whose earlier initialize() failed. *)
Theorem initialize_calm_succeeds e m w :
  wf m w = true -> nothing_fails e = true ->
  exists h m' w',
    initializeDatabase e m w = (Resolved h, m', w') /\
    db m' = Some h /\ is_open h = true /\ filename h = dbPath w m /\
    initialized m' = true /\ brokerId m' = brokerId m.
Proof. exact (initializeDatabase_calm e m w). Qed.

Lemma initialize_calm_succeeds_witness :
  exists h m' w',
    initializeDatabase (calm "t")
      (snd (fst (initializeDatabase disk_full
                   (SQLiteQueueManager_constructor "b1")
                   (new_world "/srv/node-red"))))
      (snd (initializeDatabase disk_full
              (SQLiteQueueManager_constructor "b1")
              (new_world "/srv/node-red")))
    = (Resolved h, m', w') /\ initialized m' = true.
Proof.
  destruct (initialize_calm_succeeds (calm "t")
      (snd (fst (initializeDatabase disk_full
                   (SQLiteQueueManager_constructor "b1")
                   (new_world "/srv/node-red"))))
      (snd (initializeDatabase disk_full
              (SQLiteQueueManager_constructor "b1")
              (new_world "/srv/node-red"))) eq_refl eq_refl)
    as (h & m' & w' & Hi & _ & _ & _ & Hini & _).
  exists h, m', w'. split; [exact Hi|exact Hini].
Defined.

(** X4: when the store is not initialized, initialize() asks whether the
    data directory exists and creates it only when it is missing; when
    that creation fails the promise is rejected before any Database is
    constructed, and the manager and the files are as they were; in every
    other case the Database is constructed on the broker's path, so the
    handle is assigned, and the schema statement is sent exactly when the
    open succeeded. *)
Theorem initialize_directory e m w :
  initialized m = false ->
  let dir := path_join (cwd w) "data" in
  (data_dir w = false -> mkdir_fails e = true ->
   initializeDatabase e m w
   = (Rejected FsError, m,
      logged (fs_mkdirSync dir) (logged (fs_existsSync dir) w))) /\
  (data_dir w = true \/ mkdir_fails e = false ->
   forall p m' w',
     initializeDatabase e m w = (p, m', w') ->
     data_dir w' = true /\
     (exists h, db m' = Some h /\ filename h = dbPath w m) /\
     log w'
     = (match open_fails e with
        | Some _ => []
        | None => [Database_query CREATE_TABLE_IF_NOT_EXISTS]
        end
        ++ Database_new (dbPath w m)
        :: (if data_dir w then [] else [fs_mkdirSync dir])
        ++ fs_existsSync dir :: log w)%list).
Proof.
  intros Hi dir. unfold initialized in Hi. split.
  - intros Hd Hmk. unfold initializeDatabase. cbn [data_dir logged].
    rewrite Hd, Hmk. destruct (dbInitialized m), (db m); try discriminate;
      reflexivity.
  - intros Hok p m' w'. unfold initializeDatabase, query.
    cbn [data_dir logged is_open filename].
    assert (Hmade : (if data_dir w then false else mkdir_fails e) = false).
    { destruct Hok as [-> | ->]; [reflexivity|now destruct (data_dir w)]. }
    destruct (dbInitialized m), (db m); try discriminate;
      destruct (data_dir w) eqn:Hd; rewrite ?Hmade;
      destruct (open_fails e); destruct (fault e);
      cbn [files logged make_dir write_file];
      destruct (files w (dbPath w m)) as [f|] eqn:Hfile;
      cbn [files logged make_dir write_file];
      rewrite ?Hfile, ?String.eqb_refl; cbn [exec sql_create_table];
      intros [= <- <- <-];
      cbn [data_dir logged make_dir write_file log db set_db
             set_dbInitialized filename app];
      rewrite ?Hd; repeat split; eauto.
Qed.

Lemma initialize_directory_witness :
  initializeDatabase
    {| mkdir_fails := true; open_fails := None; fault := None; now := "t" |}
    (SQLiteQueueManager_constructor "b1") (new_world "/srv/node-red")
  = (Rejected FsError, SQLiteQueueManager_constructor "b1",
     logged (fs_mkdirSync "/srv/node-red/data")
       (logged (fs_existsSync "/srv/node-red/data")
          (new_world "/srv/node-red"))).
Proof.
  destruct (initialize_directory
              {| mkdir_fails := true; open_fails := None; fault := None;
                 now := "t" |}
              (SQLiteQueueManager_constructor "b1")
              (new_world "/srv/node-red") eq_refl) as [H _].
  exact (H eq_refl eq_refl).
Defined.

Lemma closeDatabase_initialized e m w :
  wf m w = true -> initialized m = true -> fault e = None ->
  closeDatabase e m w
  = (Resolved tt, set_dbInitialized false (set_db None m),
     logged Database_close w).
Proof.
  intros Hwf Hi Hf.
  destruct (initialized_inv _ _ Hwf Hi) as (h & f & Hdb & Hop & _).
  unfold closeDatabase. now rewrite Hdb, Hop, Hf.
Qed.

(** X5: on an initialized store a close() the engine does not fail
    resolves and leaves the manager with a null handle; an initialize()
    after it that meets no failure resolves, the store is initialized
    again, and the pending messages and the sqlite_sequence entry are
    those from before the close. *)
Theorem close_then_initialize e1 e2 m w :
  wf m w = true -> initialized m = true ->
  fault e1 = None -> nothing_fails e2 = true ->
  exists m1 w1 h m2 w2,
    closeDatabase e1 m w = (Resolved tt, m1, w1) /\
    db m1 = None /\ dbInitialized m1 = false /\
    initializeDatabase e2 m1 w1 = (Resolved h, m2, w2) /\
    initialized m2 = true /\
    pending m2 w2 = pending m w /\ sequence_of m2 w2 = sequence_of m w.
Proof.
  intros Hwf Hi Hf1 He2.
  pose proof (closeDatabase_initialized e1 m w Hwf Hi Hf1) as Hc.
  assert (Hwf1 : wf (set_dbInitialized false (set_db None m))
                    (logged Database_close w) = true).
  { apply (wf_after e1 Close m w (Done (Resolved tt))); [exact Hwf|].
    cbn [step]. now rewrite Hc. }
  destruct (initializeDatabase_calm e2 _ _ Hwf1 He2)
    as (h & m2 & w2 & Hinit & _ & _ & _ & Hi2 & _).
  destruct (initializeDatabase_keeps_rows _ _ _ _ _ _ Hwf1 Hinit) as [Hp Hs].
  exists (set_dbInitialized false (set_db None m)), (logged Database_close w),
    h, m2, w2.
  repeat split; auto.
Qed.

Lemma close_then_initialize_witness :
  exists m1 w1 h m2 w2,
    closeDatabase (calm "t1") (fst (store_with three_readings))
      (snd (store_with three_readings)) = (Resolved tt, m1, w1) /\
    initializeDatabase (calm "t2") m1 w1 = (Resolved h, m2, w2) /\
    map col_id (pending m2 w2) = [1; 2; 3].
Proof.
  destruct (close_then_initialize (calm "t1") (calm "t2")
              (fst (store_with three_readings))
              (snd (store_with three_readings))
              eq_refl eq_refl eq_refl eq_refl)
    as (m1 & w1 & h & m2 & w2 & Hc & _ & _ & Hi & _ & Hp & _).
  exists m1, w1, h, m2, w2. split; [exact Hc|]. split; [exact Hi|].
  rewrite Hp. reflexivity.
Defined.

End Lifecycle.

(* ================================================================= *)
(** ** What calls leave alone *)

Section Untouched.

Ltac settle_rejected Hq Hcwd :=
  destruct Hq as [Hcwd [[Hf _]|(f & a0 & f' & _ & _ & _ & _ & Ha & _)]];
  [|discriminate];
  unfold pending, sequence_of;
  match goal with
  | |- context [dbPath ?w0 ?m0] =>
      rewrite (dbPath_eq m0 _ m0 w0 Hcwd eq_refl)
  end; rewrite Hf; auto.

Lemma rejected_step e r m w resp m' w' :
  wf m w = true -> step e r m w = (resp, m', w') -> rejected resp = true ->
  pending m' w' = pending m w /\ sequence_of m' w' = sequence_of m w /\
  (r <> Initialize -> m' = m).
Proof.
  intros Hwf. destruct r; cbn [step].
  - destruct (initializeDatabase e m w) as [[p m1] w1] eqn:Hi.
    intros [= <- <- <-] _.
    destruct (initializeDatabase_keeps_rows _ _ _ _ _ _ Hwf Hi) as [Hp Hs].
    repeat split; auto. congruence.
  - unfold getQueueLength. destruct (db m) as [h|] eqn:Hdb;
      [|intros [= <- <- <-]; discriminate].
    run_query Hwf Hdb; intros [= <- <- <-] Hr; [discriminate|].
    settle_rejected Hq Hcwd.
  - unfold addMessageToQueue. destruct (db m) as [h|] eqn:Hdb;
      [|intros [= <- <- <-]; auto].
    run_query Hwf Hdb; intros [= <- <- <-] Hr; [discriminate|].
    settle_rejected Hq Hcwd.
  - unfold removeOldestMessage. destruct (db m) as [h|] eqn:Hdb;
      [|intros [= <- <- <-]; auto].
    run_query Hwf Hdb; intros [= <- <- <-] Hr; [discriminate|].
    settle_rejected Hq Hcwd.
  - unfold getMessagesFromQueue. destruct (db m) as [h|] eqn:Hdb;
      [|intros [= <- <- <-]; discriminate].
    run_query Hwf Hdb; intros [= <- <- <-] Hr; [discriminate|].
    settle_rejected Hq Hcwd.
  - unfold removeMessagesFromQueue. destruct (db m) as [h|] eqn:Hdb;
      [|intros [= <- <- <-]; discriminate].
    destruct ids as [|i ids]; [intros [= <- <- <-]; discriminate|].
    run_query Hwf Hdb; intros [= <- <- <-] Hr; [discriminate|].
    settle_rejected Hq Hcwd.
  - unfold removeMessageFromQueue. destruct (db m) as [h|] eqn:Hdb;
      [|intros [= <- <- <-]; auto].
    run_query Hwf Hdb; intros [= <- <- <-] Hr; [discriminate|].
    settle_rejected Hq Hcwd.
  - unfold closeDatabase. destruct (db m) as [h|] eqn:Hdb;
      [|intros [= <- <- <-]; discriminate].
    destruct (is_open h); [destruct (fault e)|]; intros [= <- <- <-] Hr;
      try discriminate; auto.
Qed.

(** X6: a call whose promise is rejected, whichever of the eight methods
    it is and whatever the reason, leaves the pending messages and the
    sqlite_sequence entry as they were; unless it is initialize(), it
    leaves the manager's fields as they were too. *)
Theorem rejected_call_changes_nothing e r m w resp m' w' :
  wf m w = true -> step e r m w = (resp, m', w') -> rejected resp = true ->
  pending m' w' = pending m w /\ sequence_of m' w' = sequence_of m w /\
  (r <> Initialize -> m' = m).
Proof. exact (rejected_step e r m w resp m' w'). Qed.

Lemma rejected_call_changes_nothing_witness :
  map col_id
    (pending (fst (store_with three_readings))
       (snd (addMessageToQueue disk_full "sensors/t4" JNull None None
               (fst (store_with three_readings))
               (snd (store_with three_readings)))))
  = [1; 2; 3].
Proof.
  destruct (rejected_call_changes_nothing disk_full
              (Enqueue "sensors/t4" JNull None None)
              (fst (store_with three_readings))
              (snd (store_with three_readings))
              (Done (Rejected (SqliteError SQLITE_FULL)))
              (fst (store_with three_readings))
              (snd (addMessageToQueue disk_full "sensors/t4" JNull None None
                      (fst (store_with three_readings))
                      (snd (store_with three_readings))))
              eq_refl eq_refl eq_refl) as (Hp & _).
  rewrite Hp. reflexivity.
Defined.

Lemma select_keeps_files e h q w p w' :
  (forall f a f', exec (now e) q f = inr (a, f') -> f' = f) ->
  query e h q w = (p, w') -> forall path, files w' path = files w path.
Proof.
  intros Hro Hq path. apply query_spec in Hq.
  destruct Hq as [(c & -> & ->)|(a & f & f' & -> & _ & _ & Hfile & He & ->)];
    [reflexivity|].
  rewrite (Hro _ _ _ He). cbn [files write_file logged].
  destruct (String.eqb_spec path (filename h)) as [->|]; auto.
Qed.

(** X7: length() and list(limit), resolved or rejected, on any store,
    leave the manager's fields and every database file as they were. *)
Theorem reads_change_nothing e m w :
  (forall p m' w',
      getQueueLength e m w = (p, m', w') ->
      m' = m /\ forall path, files w' path = files w path) /\
  (forall limit p m' w',
      getMessagesFromQueue e limit m w = (p, m', w') ->
      m' = m /\ forall path, files w' path = files w path).
Proof.
  split.
  - intros p m' w'. unfold getQueueLength.
    destruct (db m) as [h|]; [|intros [= <- <- <-]; auto].
    destruct (query e h SELECT_COUNT w) as [p0 w0] eqn:Hq.
    assert (Hfiles : forall path, files w0 path = files w path).
    { apply (select_keeps_files e h SELECT_COUNT w p0 w0); [|exact Hq].
      intros f a f'. simpl. unfold sql_count.
      destruct (has_table f); [|discriminate]. now intros [= _ <-]. }
    destruct p0; intros [= <- <- <-]; auto.
  - intros limit p m' w'. unfold getMessagesFromQueue.
    destruct (db m) as [h|]; [|intros [= <- <- <-]; auto].
    match goal with |- context [query e h ?q w] =>
      destruct (query e h q w) as [p0 w0] eqn:Hq;
      assert (Hfiles : forall path, files w0 path = files w path)
    end.
    { eapply select_keeps_files; [|exact Hq].
      intros f a f'. simpl. unfold sql_select_limit.
      destruct (has_table f); [|discriminate].
      destruct (limit_accepted _); [|discriminate]. now intros [= _ <-]. }
    destruct p0; intros [= <- <- <-]; auto.
Qed.

Lemma reads_change_nothing_witness :
  pending (fst (store_with three_readings))
    (snd (getMessagesFromQueue (calm "t") (Some 2)
            (fst (store_with three_readings))
            (snd (store_with three_readings))))
  = pending (fst (store_with three_readings)) (snd (store_with three_readings)).
Proof.
  destruct (reads_change_nothing (calm "t") (fst (store_with three_readings))
              (snd (store_with three_readings))) as [_ H].
  destruct (H (Some 2) _ _ _ eq_refl) as [_ Hfiles].
  unfold pending. cbn [dbPath cwd]. now rewrite Hfiles.
Defined.

(** A query touches no file but the one of its handle. *)
Lemma query_other_files e h q w p w' path :
  query e h q w = (p, w') -> path <> filename h ->
  files w' path = files w path.
Proof.
  intros Hq Hne. apply query_spec in Hq.
  destruct Hq as [(c & -> & ->)|(a & f & f' & -> & _ & _ & _ & _ & ->)];
    [reflexivity|].
  cbn [files write_file logged].
  destruct (String.eqb_spec path (filename h)); [contradiction|reflexivity].
Qed.

Lemma step_other_files e r m w resp m' w' path :
  wf m w = true -> step e r m w = (resp, m', w') ->
  path <> dbPath w m -> files w' path = files w path.
Proof.
  intros Hwf Hs Hne.
  assert (Hq : forall h q p0 w0,
             db m = Some h -> query e h q w = (p0, w0) ->
             files w0 path = files w path).
  { intros h q p0 w0 Hdb Hq. apply (query_other_files e h q w p0 w0); auto.
    apply wf_spec in Hwf. rewrite Hdb in Hwf. destruct Hwf as (_ & -> & _).
    exact Hne. }
  destruct r; cbn [step] in Hs.
  - unfold initializeDatabase, query in Hs. cbn [is_open filename] in Hs.
    destruct (dbInitialized m), (db m); cbn [data_dir logged] in Hs;
      try (injection Hs as <- <- <-; reflexivity);
      destruct (data_dir w); [|destruct (mkdir_fails e)| |destruct (mkdir_fails e)
                              | |destruct (mkdir_fails e)];
      try (injection Hs as <- <- <-; reflexivity);
      destruct (open_fails e); try (injection Hs as <- <- <-; reflexivity);
      destruct (fault e); cbn [files logged make_dir write_file] in Hs;
      destruct (files w (dbPath w m)) as [f|] eqn:Hfile;
      cbn [files logged make_dir write_file] in Hs;
      rewrite ?Hfile, ?String.eqb_refl in Hs; cbn [exec sql_create_table] in Hs;
      injection Hs as <- <- <-; cbn [files logged make_dir write_file];
      destruct (String.eqb_spec path (dbPath w m)); try contradiction;
      reflexivity.
  - unfold getQueueLength in Hs. destruct (db m) as [h|] eqn:Hdb;
      [|now injection Hs as <- <- <-].
    destruct (query e h SELECT_COUNT w) as [[a|err] w0] eqn:Hqq;
      injection Hs as <- <- <-; eauto.
  - unfold addMessageToQueue in Hs. destruct (db m) as [h|] eqn:Hdb;
      [|now injection Hs as <- <- <-].
    match type of Hs with context [query e h ?q w] =>
      destruct (query e h q w) as [[a|err] w0] eqn:Hqq end;
      injection Hs as <- <- <-; eauto.
  - unfold removeOldestMessage in Hs. destruct (db m) as [h|] eqn:Hdb;
      [|now injection Hs as <- <- <-].
    destruct (query e h DELETE_MIN w) as [[a|err] w0] eqn:Hqq;
      injection Hs as <- <- <-; eauto.
  - unfold getMessagesFromQueue in Hs. destruct (db m) as [h|] eqn:Hdb;
      [|now injection Hs as <- <- <-].
    match type of Hs with context [query e h ?q w] =>
      destruct (query e h q w) as [[a|err] w0] eqn:Hqq end;
      injection Hs as <- <- <-; eauto.
  - unfold removeMessagesFromQueue in Hs. destruct (db m) as [h|] eqn:Hdb;
      [|now injection Hs as <- <- <-].
    destruct ids as [|i ids]; [now injection Hs as <- <- <-|].
    match type of Hs with context [query e h ?q w] =>
      destruct (query e h q w) as [[a|err] w0] eqn:Hqq end;
      injection Hs as <- <- <-; eauto.
  - unfold removeMessageFromQueue in Hs. destruct (db m) as [h|] eqn:Hdb;
      [|now injection Hs as <- <- <-].
    match type of Hs with context [query e h ?q w] =>
      destruct (query e h q w) as [[a|err] w0] eqn:Hqq end;
      injection Hs as <- <- <-; eauto.
  - unfold closeDatabase in Hs. destruct (db m) as [h|];
      [|now injection Hs as <- <- <-].
    destruct (is_open h); [destruct (fault e)|]; now injection Hs as <- <- <-.
Qed.

Lemma step_brokerId e r m w resp m' w' :
  step e r m w = (resp, m', w') -> brokerId m' = brokerId m.
Proof.
  destruct r; cbn [step].
  - destruct (initializeDatabase e m w) as [[p m1] w1] eqn:Hi.
    intros [= <- <- <-]. destruct (initialized m) eqn:Hini.
    + unfold initialized in Hini. unfold initializeDatabase in Hi.
      destruct (dbInitialized m), (db m); try discriminate.
      now injection Hi as <- <- <-.
    + destruct (initializeDatabase_cases _ _ _ _ _ _ Hini Hi) as [_ Hc].
      destruct Hc as [(_ & -> & _)|[(c & _ & _ & -> & _)|
        [(c & _ & _ & -> & _)|(f' & _ & _ & _ & -> & _)]]]; reflexivity.
  - unfold getQueueLength. destruct (db m) as [h|];
      [destruct (query e h SELECT_COUNT w) as [[a|err] w0]|];
      now intros [= <- <- <-].
  - unfold addMessageToQueue. destruct (db m) as [h|];
      [match goal with |- context [query e h ?q w] =>
         destruct (query e h q w) as [[a|err] w0] end|];
      now intros [= <- <- <-].
  - unfold removeOldestMessage. destruct (db m) as [h|];
      [destruct (query e h DELETE_MIN w) as [[a|err] w0]|];
      now intros [= <- <- <-].
  - unfold getMessagesFromQueue. destruct (db m) as [h|];
      [match goal with |- context [query e h ?q w] =>
         destruct (query e h q w) as [[a|err] w0] end|];
      now intros [= <- <- <-].
  - unfold removeMessagesFromQueue. destruct (db m) as [h|];
      [destruct ids as [|i ids];
       [|match goal with |- context [query e h ?q w] =>
           destruct (query e h q w) as [[a|err] w0] end]|];
      now intros [= <- <- <-].
  - unfold removeMessageFromQueue. destruct (db m) as [h|];
      [match goal with |- context [query e h ?q w] =>
         destruct (query e h q w) as [[a|err] w0] end|];
      now intros [= <- <- <-].
  - unfold closeDatabase. destruct (db m) as [h|];
      [destruct (is_open h); [destruct (fault e)|]|];
      now intros [= <- <- <-].
Qed.

(** X8: no call of any of the eight methods changes a database file other
    than the one of the manager's own broker, and none changes the
    broker identifier or the path of that file. *)
Theorem other_files_untouched e r m w resp m' w' :
  wf m w = true -> step e r m w = (resp, m', w') ->
  (forall path, path <> dbPath w m -> files w' path = files w path) /\
  brokerId m' = brokerId m /\ dbPath w' m' = dbPath w m.
Proof.
  intros Hwf Hs. split.
  - intros path Hne. exact (step_other_files e r m w resp m' w' path Hwf Hs Hne).
  - destruct (step_file _ _ _ _ _ _ _ Hwf Hs) as (_ & Hp & _).
    split; [|exact Hp]. exact (step_brokerId e r m w resp m' w' Hs).
Qed.

Lemma other_files_untouched_witness :
  files
    (snd (addMessageToQueue (calm "t") "sensors/t4" JNull None None
            (fst (store_with three_readings))
            (snd (store_with three_readings))))
    "/srv/node-red/data/mqtt-sparkplug-queue-b2.db"
  = None.
Proof.
  destruct (other_files_untouched (calm "t")
              (Enqueue "sensors/t4" JNull None None)
              (fst (store_with three_readings))
              (snd (store_with three_readings))
              (Done (Resolved tt))
              (fst (store_with three_readings))
              (snd (addMessageToQueue (calm "t") "sensors/t4" JNull None None
                      (fst (store_with three_readings))
                      (snd (store_with three_readings))))
              eq_refl eq_refl) as (Hfiles & _).
  rewrite Hfiles; [reflexivity|]. vm_compute. discriminate.
Defined.

End Untouched.

(* ================================================================= *)
(** ** Draining the queue *)

Section Drain.

Lemma wf_after_list e limit m w :
  wf m w = true ->
  wf m (snd (getMessagesFromQueue e limit m w)) = true.
Proof.
  intros Hwf.
  destruct (getMessagesFromQueue e limit m w) as [[p m'] w'] eqn:Hl.
  assert (Hs : step e (ListUpTo limit) m w = (Messages p, m', w')).
  { cbn [step]. now rewrite Hl. }
  assert (Hm : m' = m).
  { revert Hl. unfold getMessagesFromQueue. destruct (db m) as [h|];
      [match goal with |- context [query e h ?q w] =>
         destruct (query e h q w) as [[a|err] w0] end|];
      now intros [= _ <- _]. }
  subst m'. exact (wf_after _ _ _ _ _ _ _ Hwf Hs).
Qed.

Lemma filter_not_listed_firstn (k : nat) (l : list row) :
  StronglySorted Z.lt (map col_id l) ->
  filter (fun r => negb (mem_id (col_id r) (map col_id (firstn k l)))) l
  = skipn k l.
Proof.
  revert l. induction k as [|k IH]; intros l Hs.
  - cbn [firstn map skipn]. now apply forallb_filter_id, forallb_forall.
  - destruct l as [|x l]; [reflexivity|].
    inversion Hs as [|? ? Hs' Hall]; subst. rewrite Forall_forall in Hall.
    cbn [firstn map skipn filter]. unfold mem_id at 1. cbn [existsb].
    rewrite Z.eqb_refl. cbn [orb negb]. rewrite <- (IH l Hs').
    apply filter_ext_in. intros r Hr. unfold mem_id. cbn [existsb].
    specialize (Hall _ (in_map col_id _ _ Hr)).
    destruct (Z.eqb_spec (col_id r) (col_id x)); [lia|reflexivity].
Qed.

Lemma filter_not_listed_all (l : list row) :
  filter (fun r => negb (mem_id (col_id r) (map col_id l))) l = [].
Proof.
  pose proof (fresh_ids_incl l l (incl_refl l)) as H. unfold fresh_ids in H.
  now apply map_eq_nil in H.
Qed.

Lemma not_listed_remain (n : Z) (l : list row) :
  StronglySorted Z.lt (map col_id l) ->
  l = (sql_limit n l
       ++ filter (fun r => negb (mem_id (col_id r) (map col_id (sql_limit n l)))) l)%list.
Proof.
  intros Hs. unfold sql_limit. destruct (n <? 0).
  - now rewrite filter_not_listed_all, List.app_nil_r.
  - rewrite filter_not_listed_firstn by exact Hs. now rewrite firstn_skipn.
Qed.

Lemma sql_limit_count {A : Type} (n : Z) (l : list A) :
  Z.of_nat (List.length (sql_limit n l)) <= Z.of_nat (List.length l).
Proof.
  unfold sql_limit. destruct (n <? 0); [lia|]. rewrite length_firstn. lia.
Qed.

(** X9: on an initialized store, for a limit strictly between -2^63 and
    2^63 and with at most 32766 messages listed (the limit is between 0
    and 32766, as the default 500 is, or no more than 32766 messages are
    pending), removeByIds with the identifiers of the messages that
    list(limit) returned leaves exactly the messages that list did not
    return: the pending messages before are the listed ones followed by
    the remaining ones, so the next list(limit) continues where this one
    stopped. *)
Theorem list_then_removeByIds e1 e2 limit m w :
  wf m w = true -> initialized m = true ->
  fault e1 = None -> fault e2 = None ->
  let k := match limit with Some n => n | None => 500 end in
  - 9223372036854775808 < k < 9223372036854775808 ->
  0 <= k <= SQLITE_MAX_VARIABLE_NUMBER
  \/ Z.of_nat (List.length (pending m w)) <= SQLITE_MAX_VARIABLE_NUMBER ->
  exists listed w1 w2,
    getMessagesFromQueue e1 limit m w = (Resolved listed, m, w1) /\
    removeMessagesFromQueue e2 (map col_id listed) m w1 = (Resolved tt, m, w2) /\
    pending m w = (listed ++ pending m w2)%list /\
    (forall n, limit = Some n -> 0 <= n ->
               pending m w2 = skipn (Z.to_nat n) (pending m w)).
Proof.
  intros Hwf Hi Hf1 Hf2 k Hk Hfew. apply limit_accepted_spec in Hk.
  destruct (getMessagesFromQueue_initialized m w Hwf Hi e1 limit Hf1 Hk)
    as (w1 & Hl & Hp1).
  assert (Hwf1 : wf m w1 = true).
  { pose proof (wf_after_list e1 limit m w Hwf) as H. now rewrite Hl in H. }
  assert (Hlen : Z.of_nat (List.length (map col_id (sql_limit k (pending m w))))
                 <= SQLITE_MAX_VARIABLE_NUMBER).
  { rewrite length_map. destruct Hfew as [Hsmall|Hsmall].
    - pose proof (sql_limit_length k (pending m w) ltac:(lia)). lia.
    - pose proof (sql_limit_count k (pending m w)). lia. }
  destruct (removeMessagesFromQueue_initialized m w1 Hwf1 Hi e2
              (map col_id (sql_limit k (pending m w))) Hf2 Hlen)
    as (w2 & Hr & Hp2).
  pose proof (pending_sorted m w Hwf) as Hs.
  eexists _, w1, w2. split; [exact Hl|]. split; [exact Hr|].
  rewrite Hp2, Hp1. split; [now apply not_listed_remain|].
  intros n Heq Hn. subst limit. unfold k, sql_limit.
  destruct (Z.ltb_spec n 0); [lia|].
  now apply filter_not_listed_firstn.
Qed.

Lemma list_then_removeByIds_witness :
  exists listed w1 w2,
    getMessagesFromQueue (calm "t1") (Some 2) (fst (store_with three_readings))
      (snd (store_with three_readings))
    = (Resolved listed, fst (store_with three_readings), w1) /\
    removeMessagesFromQueue (calm "t2") (map col_id listed)
      (fst (store_with three_readings)) w1
    = (Resolved tt, fst (store_with three_readings), w2) /\
    map col_id (pending (fst (store_with three_readings)) w2) = [3].
Proof.
  destruct (list_then_removeByIds (calm "t1") (calm "t2") (Some 2)
              (fst (store_with three_readings))
              (snd (store_with three_readings))
              eq_refl eq_refl eq_refl eq_refl
              ltac:(cbv zeta; lia)
              ltac:(left; unfold SQLITE_MAX_VARIABLE_NUMBER; lia))
    as (listed & w1 & w2 & Hl & Hr & _ & Hk).
  exists listed, w1, w2. split; [exact Hl|]. split; [exact Hr|].
  rewrite (Hk 2 eq_refl ltac:(lia)). reflexivity.
Defined.

(** X10: on an initialized store with a message pending, removeOldest()
    and removeById with the identifier of the first message that list
    returns leave the same pending messages: all but that first one. *)
Theorem removeOldest_is_removeById_of_first e1 e2 m w r rest :
  wf m w = true -> initialized m = true ->
  fault e1 = None -> fault e2 = None ->
  pending m w = r :: rest ->
  exists w1 w2,
    removeOldestMessage e1 m w = (Resolved tt, m, w1) /\
    removeMessageFromQueue e2 (col_id r) m w = (Resolved tt, m, w2) /\
    pending m w1 = rest /\ pending m w2 = rest.
Proof.
  intros Hwf Hi Hf1 Hf2 Hp.
  destruct (removeOldestMessage_initialized m w Hwf Hi e1 Hf1) as (w1 & Ho & Hp1).
  destruct (removeMessageFromQueue_initialized m w Hwf Hi e2 (col_id r) Hf2)
    as (w2 & Hr & Hp2).
  pose proof (pending_sorted m w Hwf) as Hs. rewrite Hp in *.
  exists w1, w2. repeat split; auto.
  rewrite Hp2. now apply filter_head_out.
Qed.

Lemma removeOldest_is_removeById_of_first_witness :
  exists w1 w2,
    removeOldestMessage (calm "t") (fst (store_with three_readings))
      (snd (store_with three_readings))
    = (Resolved tt, fst (store_with three_readings), w1) /\
    removeMessageFromQueue (calm "t") 1 (fst (store_with three_readings))
      (snd (store_with three_readings))
    = (Resolved tt, fst (store_with three_readings), w2) /\
    pending (fst (store_with three_readings)) w1
    = pending (fst (store_with three_readings)) w2.
Proof.
  destruct (removeOldest_is_removeById_of_first (calm "t") (calm "t")
              (fst (store_with three_readings))
              (snd (store_with three_readings))
              (hd (new_row (fst (store_with [])) (snd (store_with []))
                     (calm "2024-01-01 00:00:01") (reading "sensors/t1" 42))
                  (pending (fst (store_with three_readings))
                     (snd (store_with three_readings))))
              (tl (pending (fst (store_with three_readings))
                     (snd (store_with three_readings))))
              eq_refl eq_refl eq_refl eq_refl eq_refl)
    as (w1 & w2 & Ho & Hr & Hp1 & Hp2).
  exists w1, w2. split; [exact Ho|]. split; [exact Hr|]. now rewrite Hp1, Hp2.
Defined.

(** X11: on an initialized store, length() is the number of pending
    messages, list(limit) with a limit strictly between -2^63 and 2^63
    returns the smaller of limit and length() of them when limit is not
    negative and all of them when it is negative, and after an enqueue
    that resolved length() is one more than before. *)
Theorem length_counts_pending e1 e2 limit m w :
  wf m w = true -> initialized m = true ->
  fault e1 = None -> fault e2 = None ->
  - 9223372036854775808 < limit < 9223372036854775808 ->
  exists count listed,
    fst (fst (getQueueLength e1 m w)) = Resolved count /\
    count = Z.of_nat (List.length (pending m w)) /\
    fst (fst (getMessagesFromQueue e2 (Some limit) m w)) = Resolved listed /\
    (0 <= limit -> Z.of_nat (List.length listed) = Z.min limit count) /\
    (limit < 0 -> Z.of_nat (List.length listed) = count) /\
    forall e x w' e3,
      addMessageToQueue e (msg_topic x) (msg_payload x) (msg_qos x)
        (msg_retain x) m w = (Resolved tt, m, w') ->
      fault e3 = None ->
      fst (fst (getQueueLength e3 m w')) = Resolved (count + 1).
Proof.
  intros Hwf Hi Hf1 Hf2 Hk. apply limit_accepted_spec in Hk.
  destruct (getQueueLength_initialized m w Hwf Hi e1 Hf1) as (w1 & Hc & _).
  destruct (getMessagesFromQueue_initialized m w Hwf Hi e2 (Some limit) Hf2 Hk)
    as (w2 & Hl & _).
  eexists _, _. rewrite Hc, Hl. cbn [fst].
  split; [reflexivity|]. split; [reflexivity|]. split; [reflexivity|].
  unfold sql_limit. split; [|split].
  - intros H0. destruct (Z.ltb_spec limit 0); [lia|]. rewrite length_firstn. lia.
  - intros Hneg. destruct (Z.ltb_spec limit 0); [reflexivity|lia].
  - intros e x w' e3 Ha Hf3.
    destruct (addMessageToQueue_resolved _ _ _ _ _ _ Hwf Ha)
      as (_ & Hwf' & Hp & _).
    destruct (getQueueLength_initialized m w' Hwf' Hi e3 Hf3) as (w3 & -> & _).
    cbn [fst]. rewrite Hp, length_app. cbn [List.length]. f_equal. lia.
Qed.

Lemma length_counts_pending_witness :
  fst (fst (getQueueLength (calm "t") (fst (store_with three_readings))
              (snd (store_with three_readings)))) = Resolved 3.
Proof.
  destruct (length_counts_pending (calm "t") (calm "t") 2
              (fst (store_with three_readings))
              (snd (store_with three_readings))
              eq_refl eq_refl eq_refl eq_refl ltac:(lia))
    as (count & listed & Hc & -> & _).
  exact Hc.
Defined.

Lemma sorted_count (l : list Z) : forall lo hi,
  StronglySorted Z.lt l -> Forall (fun x => lo <= x <= hi) l ->
  Z.of_nat (List.length l) <= Z.max 0 (hi - lo + 1).
Proof.
  induction l as [|x l IH]; intros lo hi Hs Hall; [simpl; lia|].
  inversion Hs as [|? ? Hs' Hlt]; subst. inversion Hall as [|? ? Hx Hl]; subst.
  assert (Hl' : Forall (fun y => x + 1 <= y <= hi) l).
  { rewrite Forall_forall in *. intros y Hy.
    specialize (Hlt y Hy). specialize (Hl y Hy). lia. }
  specialize (IH (x + 1) hi Hs' Hl'). cbn [List.length]. lia.
Qed.

(** There are never more pending messages than identifiers. *)
Lemma pending_count m w :
  wf m w = true -> Z.of_nat (List.length (pending m w)) <= MAX_ROWID.
Proof.
  intros Hwf. pose proof (pending_sorted m w Hwf) as Hs.
  apply wf_spec in Hwf. destruct Hwf as [Hfw _]. unfold pending in *.
  destruct (files w (dbPath w m)) as [f|]; [|unfold MAX_ROWID; simpl; lia].
  specialize (Hfw f eq_refl). apply wf_file_spec in Hfw.
  destruct Hfw as (_ & Hall & Hseq & _).
  pose proof (sorted_count (map col_id (rows f)) 1 (sequence f) Hs) as Hc.
  rewrite length_map in Hc.
  assert (Hall' : Forall (fun x => 1 <= x <= sequence f) (map col_id (rows f)))
    by now rewrite Forall_map.
  specialize (Hc Hall'). lia.
Qed.

(** X12: an enqueue never changes the front of the queue: for a limit
    between 0 and the number of messages pending before it, list(limit)
    after an enqueue that resolved returns the same messages as before. *)
Theorem enqueue_keeps_front e x m w w' e1 e2 limit :
  wf m w = true -> initialized m = true ->
  addMessageToQueue e (msg_topic x) (msg_payload x) (msg_qos x) (msg_retain x)
    m w = (Resolved tt, m, w') ->
  fault e1 = None -> fault e2 = None ->
  0 <= limit <= Z.of_nat (List.length (pending m w)) ->
  fst (fst (getMessagesFromQueue e2 (Some limit) m w'))
  = fst (fst (getMessagesFromQueue e1 (Some limit) m w)).
Proof.
  intros Hwf Hi Ha Hf1 Hf2 Hl.
  destruct (addMessageToQueue_resolved _ _ _ _ _ _ Hwf Ha) as (_ & Hwf' & Hp & _).
  assert (Hk : limit_accepted limit = true).
  { apply limit_accepted_spec. pose proof (pending_count m w Hwf).
    unfold MAX_ROWID in *. lia. }
  destruct (getMessagesFromQueue_initialized m w Hwf Hi e1 (Some limit) Hf1 Hk)
    as (w1 & -> & _).
  destruct (getMessagesFromQueue_initialized m w' Hwf' Hi e2 (Some limit) Hf2 Hk)
    as (w2 & -> & _).
  cbn [fst]. f_equal. rewrite Hp. unfold sql_limit.
  destruct (Z.ltb_spec limit 0); [lia|].
  rewrite firstn_app.
  replace (Z.to_nat limit - List.length (pending m w))%nat with 0%nat by lia.
  cbn [firstn]. now rewrite List.app_nil_r.
Qed.

Lemma enqueue_keeps_front_witness :
  fst (fst (getMessagesFromQueue (calm "t") (Some 1)
              (fst (store_with [reading "sensors/t1" 42]))
              (snd (store_with [reading "sensors/t1" 42;
                                reading "sensors/t2" 43]))))
  = fst (fst (getMessagesFromQueue (calm "t") (Some 1)
                (fst (store_with [reading "sensors/t1" 42]))
                (snd (store_with [reading "sensors/t1" 42])))).
Proof.
  apply (enqueue_keeps_front (calm "2024-01-01 00:00:01")
           (reading "sensors/t2" 43)
           (fst (store_with [reading "sensors/t1" 42]))
           (snd (store_with [reading "sensors/t1" 42]))
           (snd (store_with [reading "sensors/t1" 42; reading "sensors/t2" 43]))
           (calm "t") (calm "t") 1 eq_refl eq_refl eq_refl eq_refl eq_refl).
  vm_compute. split; discriminate.
Defined.

End Drain.

(* ================================================================= *)
(** ** The manager along a run *)

Section Along.

(** X13: in every state a run from a new manager reaches, [dbInitialized]
    is false while [db] is null; when it is true, [db] is an open handle
    on the broker's file and that file has the table; a handle always
    names the broker's file; and the pending messages have distinct
    identifiers, each at least 1 and at most the sqlite_sequence entry. *)
Theorem run_keeps_invariant b cwd0 calls :
  let m := fst (run calls (SQLiteQueueManager_constructor b) (new_world cwd0)) in
  let w := snd (run calls (SQLiteQueueManager_constructor b) (new_world cwd0)) in
  (db m = None -> dbInitialized m = false) /\
  (dbInitialized m = true ->
   exists h f, db m = Some h /\ is_open h = true /\
               files w (dbPath w m) = Some f /\ has_table f = true) /\
  (forall h, db m = Some h -> filename h = dbPath w m) /\
  NoDup (map col_id (pending m w)) /\
  Forall (fun r => 1 <= col_id r <= sequence_of m w) (pending m w) /\
  sequence_of m w <= MAX_ROWID.
Proof.
  destruct (run calls (SQLiteQueueManager_constructor b) (new_world cwd0))
    as [m w] eqn:Hr. cbn [fst snd].
  pose proof (wf_run _ _ _ _ _ (wf_new b cwd0) Hr) as Hwf.
  pose proof (pending_sorted m w Hwf) as Hs.
  apply wf_spec in Hwf. destruct Hwf as [Hfw Hm].
  split; [|split; [|split; [|split; [|split]]]].
  - intros Hdb. now rewrite Hdb in Hm.
  - intros Hd. destruct (db m) as [h|]; [|congruence].
    destruct Hm as (_ & _ & Hi). destruct (Hi Hd) as (Ho & f & Hf & Ht).
    exists h, f. auto.
  - intros h Hdb. rewrite Hdb in Hm. tauto.
  - now apply sorted_NoDup.
  - unfold pending, sequence_of.
    destruct (files w (dbPath w m)) as [f|]; [|constructor].
    specialize (Hfw f eq_refl). apply wf_file_spec in Hfw. tauto.
  - unfold sequence_of.
    destruct (files w (dbPath w m)) as [f|]; [|unfold MAX_ROWID; lia].
    specialize (Hfw f eq_refl). apply wf_file_spec in Hfw. tauto.
Qed.

Lemma run_keeps_invariant_witness :
  exists h f,
    db (fst (run reopened_run (SQLiteQueueManager_constructor "b1")
               (new_world "/srv/node-red"))) = Some h /\
    is_open h = true /\
    files (snd (run reopened_run (SQLiteQueueManager_constructor "b1")
                  (new_world "/srv/node-red")))
      (dbPath (snd (run reopened_run (SQLiteQueueManager_constructor "b1")
                      (new_world "/srv/node-red")))
         (fst (run reopened_run (SQLiteQueueManager_constructor "b1")
                 (new_world "/srv/node-red")))) = Some f /\
    has_table f = true.
Proof.
  destruct (run_keeps_invariant "b1" "/srv/node-red" reopened_run)
    as (_ & H & _).
  exact (H eq_refl).
Defined.

(** X14: with a handle that is set and open on a file in which the table
    was never created, as an initialize() leaves it that failed at the
    schema statement, no operation falls back to a default: length(),
    list(), enqueue, removeOldest, removeById and removeByIds with
    identifiers are all rejected with the engine's error for the missing
    table. *)
Theorem missing_table_rejects e m w h f :
  wf m w = true -> db m = Some h -> is_open h = true -> fault e = None ->
  files w (dbPath w m) = Some f -> has_table f = false ->
  fst (fst (getQueueLength e m w)) = Rejected (SqliteError SQLITE_ERROR) /\
  (forall limit,
      fst (fst (getMessagesFromQueue e limit m w))
      = Rejected (SqliteError SQLITE_ERROR)) /\
  (forall topic payload qos retain,
      fst (fst (addMessageToQueue e topic payload qos retain m w))
      = Rejected (SqliteError SQLITE_ERROR)) /\
  fst (fst (removeOldestMessage e m w)) = Rejected (SqliteError SQLITE_ERROR) /\
  (forall i,
      fst (fst (removeMessageFromQueue e i m w))
      = Rejected (SqliteError SQLITE_ERROR)) /\
  (forall i ids,
      fst (fst (removeMessagesFromQueue e (i :: ids) m w))
      = Rejected (SqliteError SQLITE_ERROR)).
Proof.
  intros Hwf Hdb Ho Hf Hfile Ht.
  assert (Hname : filename h = dbPath w m).
  { apply wf_spec in Hwf. rewrite Hdb in Hwf. tauto. }
  unfold getQueueLength, getMessagesFromQueue, addMessageToQueue,
    removeOldestMessage, removeMessageFromQueue, removeMessagesFromQueue,
    query.
  rewrite Hdb, Ho, Hf, Hname, Hfile. cbn [exec].
  unfold sql_count, sql_select_limit, sql_insert, sql_delete_min,
    sql_delete_id, sql_delete_in. rewrite Ht. repeat split.
  intros i ids. now destruct (SQLITE_MAX_VARIABLE_NUMBER <? _).
Qed.

Lemma missing_table_rejects_witness :
  fst (fst (getQueueLength (calm "t")
              (snd (fst (initializeDatabase disk_full
                           (SQLiteQueueManager_constructor "b1")
                           (new_world "/srv/node-red"))))
              (snd (initializeDatabase disk_full
                      (SQLiteQueueManager_constructor "b1")
                      (new_world "/srv/node-red")))))
  = Rejected (SqliteError SQLITE_ERROR).
Proof.
  destruct (missing_table_rejects (calm "t")
              (snd (fst (initializeDatabase disk_full
                           (SQLiteQueueManager_constructor "b1")
                           (new_world "/srv/node-red"))))
              (snd (initializeDatabase disk_full
                      (SQLiteQueueManager_constructor "b1")
                      (new_world "/srv/node-red")))
              {| filename := "/srv/node-red/data/mqtt-sparkplug-queue-b1.db";
                 is_open := true |}
              empty_file
              eq_refl eq_refl eq_refl eq_refl eq_refl eq_refl) as [H _].
  exact H.
Defined.

Lemma filter_twice {A : Type} (p q : A -> bool) (l : list A) :
  filter q (filter p l) = filter (fun x => p x && q x) l.
Proof.
  induction l as [|x l IH]; [reflexivity|]. cbn [filter].
  destruct (p x); cbn [filter andb]; [destruct (q x)|]; now rewrite IH.
Qed.

Lemma wf_after_removeByIds e ids m w w' :
  wf m w = true ->
  removeMessagesFromQueue e ids m w = (Resolved tt, m, w') -> wf m w' = true.
Proof.
  intros Hwf Hr.
  apply (wf_after e (RemoveByIds ids) m w (Done (Resolved tt)) m w' Hwf).
  cbn [step]. now rewrite Hr.
Qed.

(** X15: on an initialized store, when a and b together hold at most
    32766 identifiers, removeByIds(a) followed by removeByIds(b) leaves
    the same pending messages as one removeByIds of a and b together; in
    particular repeating removeByIds(a) removes nothing more. *)
Theorem removeByIds_composes e1 e2 e3 a b m w :
  wf m w = true -> initialized m = true ->
  fault e1 = None -> fault e2 = None -> fault e3 = None ->
  Z.of_nat (List.length (a ++ b)) <= SQLITE_MAX_VARIABLE_NUMBER ->
  exists w1 w2 w3 w4,
    removeMessagesFromQueue e1 a m w = (Resolved tt, m, w1) /\
    removeMessagesFromQueue e2 b m w1 = (Resolved tt, m, w2) /\
    removeMessagesFromQueue e3 (a ++ b) m w = (Resolved tt, m, w3) /\
    removeMessagesFromQueue e2 a m w1 = (Resolved tt, m, w4) /\
    pending m w2 = pending m w3 /\ pending m w4 = pending m w1.
Proof.
  intros Hwf Hi Hf1 Hf2 Hf3 Hab.
  assert (Ha : Z.of_nat (List.length a) <= SQLITE_MAX_VARIABLE_NUMBER)
    by (rewrite length_app in Hab; lia).
  assert (Hb : Z.of_nat (List.length b) <= SQLITE_MAX_VARIABLE_NUMBER)
    by (rewrite length_app in Hab; lia).
  destruct (removeMessagesFromQueue_initialized m w Hwf Hi e1 a Hf1 Ha)
    as (w1 & Hr1 & Hp1).
  pose proof (wf_after_removeByIds e1 a m w w1 Hwf Hr1) as Hwf1.
  destruct (removeMessagesFromQueue_initialized m w1 Hwf1 Hi e2 b Hf2 Hb)
    as (w2 & Hr2 & Hp2).
  destruct (removeMessagesFromQueue_initialized m w Hwf Hi e3 (a ++ b) Hf3 Hab)
    as (w3 & Hr3 & Hp3).
  destruct (removeMessagesFromQueue_initialized m w1 Hwf1 Hi e2 a Hf2 Ha)
    as (w4 & Hr4 & Hp4).
  exists w1, w2, w3, w4. repeat split; auto.
  - rewrite Hp2, Hp1, Hp3, filter_twice. apply filter_ext. intros r.
    unfold mem_id. now rewrite existsb_app, negb_orb.
  - rewrite Hp4, Hp1, filter_twice. apply filter_ext. intros r.
    now destruct (mem_id (col_id r) a).
Qed.

Lemma removeByIds_composes_witness :
  exists w1 w2,
    removeMessagesFromQueue (calm "t") [3]
      (fst (store_with three_readings)) (snd (store_with three_readings))
    = (Resolved tt, fst (store_with three_readings), w1) /\
    removeMessagesFromQueue (calm "t") [1; 9]
      (fst (store_with three_readings)) w1
    = (Resolved tt, fst (store_with three_readings), w2) /\
    map col_id (pending (fst (store_with three_readings)) w2) = [2].
Proof.
  destruct (removeByIds_composes (calm "t") (calm "t") (calm "t") [3] [1; 9]
              (fst (store_with three_readings))
              (snd (store_with three_readings))
              eq_refl eq_refl eq_refl eq_refl eq_refl
              ltac:(vm_compute; discriminate))
    as (w1 & w2 & w3 & w4 & Hr1 & Hr2 & Hr3 & _ & Hp & _).
  exists w1, w2. split; [exact Hr1|]. split; [exact Hr2|].
  rewrite Hp. injection Hr3 as <-. reflexivity.
Defined.

End Along.

Section Immutable.

Lemma exec_adds_no_row now q f a f' :
  (forall t p qos rt, q <> INSERT_INTO t p qos rt) ->
  exec now q f = inr (a, f') -> incl (rows f') (rows f).
Proof.
  intros Hq. destruct q; cbn [exec].
  - unfold sql_create_table. intros [= _ <-].
    destruct (has_table f); [apply incl_refl|intros x []].
  - unfold sql_count. destruct (has_table f); [|discriminate].
    intros [= _ <-]. apply incl_refl.
  - now destruct (Hq topic payload qos retain).
  - unfold sql_delete_min. destruct (has_table f); [|discriminate].
    intros [= _ <-]. cbn [rows].
    destruct (min_id (rows f)); [|apply incl_refl].
    intros x Hx. apply filter_In in Hx. tauto.
  - unfold sql_select_limit. destruct (has_table f); [|discriminate].
    destruct (limit_accepted limit); [|discriminate].
    intros [= _ <-]. apply incl_refl.
  - unfold sql_delete_in.
    destruct (SQLITE_MAX_VARIABLE_NUMBER <? _); [discriminate|].
    destruct (has_table f); [|discriminate].
    intros [= _ <-]. cbn [rows]. intros x Hx. apply filter_In in Hx. tauto.
  - unfold sql_delete_id. destruct (has_table f); [|discriminate].
    intros [= _ <-]. cbn [rows]. intros x Hx. apply filter_In in Hx. tauto.
Qed.

Lemma query_adds_no_row e h q m w p w' :
  wf m w = true -> db m = Some h ->
  (forall t pl qos rt, q <> INSERT_INTO t pl qos rt) ->
  query e h q w = (p, w') -> incl (pending m w') (pending m w).
Proof.
  intros Hwf Hdb Hq Hqq.
  destruct (query_file _ _ _ _ _ _ _ Hwf Hdb Hqq)
    as [Hcwd [[Hf _]|(f & a & f' & Hf & He & _ & _ & _ & Hf')]];
    unfold pending; rewrite (dbPath_eq m w m w' Hcwd eq_refl).
  - rewrite Hf. apply incl_refl.
  - rewrite Hf, Hf'. exact (exec_adds_no_row _ _ _ _ _ Hq He).
Qed.

Lemma step_adds_no_row e r m w resp m' w' :
  wf m w = true -> step e r m w = (resp, m', w') ->
  (forall t pl qos rt, r <> Enqueue t pl qos rt) ->
  incl (pending m' w') (pending m w).
Proof.
  intros Hwf Hs Hr. destruct r; cbn [step] in Hs.
  - destruct (initializeDatabase e m w) as [[p m1] w1] eqn:Hi.
    injection Hs as <- <- <-.
    destruct (initializeDatabase_keeps_rows _ _ _ _ _ _ Hwf Hi) as [-> _].
    apply incl_refl.
  - unfold getQueueLength in Hs. destruct (db m) as [h|] eqn:Hdb;
      [|injection Hs as <- <- <-; apply incl_refl].
    destruct (query e h SELECT_COUNT w) as [[a|err] w0] eqn:Hq;
      injection Hs as <- <- <-;
      (eapply query_adds_no_row; [exact Hwf|exact Hdb| |exact Hq]);
      discriminate.
  - now destruct (Hr topic payload qos retain).
  - unfold removeOldestMessage in Hs. destruct (db m) as [h|] eqn:Hdb;
      [|injection Hs as <- <- <-; apply incl_refl].
    destruct (query e h DELETE_MIN w) as [[a|err] w0] eqn:Hq;
      injection Hs as <- <- <-;
      (eapply query_adds_no_row; [exact Hwf|exact Hdb| |exact Hq]);
      discriminate.
  - unfold getMessagesFromQueue in Hs. destruct (db m) as [h|] eqn:Hdb;
      [|injection Hs as <- <- <-; apply incl_refl].
    match type of Hs with context [query e h ?q w] =>
      destruct (query e h q w) as [[a|err] w0] eqn:Hq end;
      injection Hs as <- <- <-;
      (eapply query_adds_no_row; [exact Hwf|exact Hdb| |exact Hq]);
      discriminate.
  - unfold removeMessagesFromQueue in Hs. destruct (db m) as [h|] eqn:Hdb;
      [|injection Hs as <- <- <-; apply incl_refl].
    destruct ids as [|i ids]; [injection Hs as <- <- <-; apply incl_refl|].
    match type of Hs with context [query e h ?q w] =>
      destruct (query e h q w) as [[a|err] w0] eqn:Hq end;
      injection Hs as <- <- <-;
      (eapply query_adds_no_row; [exact Hwf|exact Hdb| |exact Hq]);
      discriminate.
  - unfold removeMessageFromQueue in Hs. destruct (db m) as [h|] eqn:Hdb;
      [|injection Hs as <- <- <-; apply incl_refl].
    match type of Hs with context [query e h ?q w] =>
      destruct (query e h q w) as [[a|err] w0] eqn:Hq end;
      injection Hs as <- <- <-;
      (eapply query_adds_no_row; [exact Hwf|exact Hdb| |exact Hq]);
      discriminate.
  - unfold closeDatabase in Hs. destruct (db m) as [h|];
      [destruct (is_open h); [destruct (fault e)|]|];
      injection Hs as <- <- <-; apply incl_refl.
Qed.

(** X16: no call changes a stored message: every message pending after a
    call of any of the eight methods was pending before it, unchanged in
    every column, except the one message that an enqueue adds when it
    resolves, whose identifier is one more than the sqlite_sequence entry
    and above every identifier pending before. *)
Theorem messages_never_mutated e r m w resp m' w' :
  wf m w = true -> step e r m w = (resp, m', w') ->
  forall x, In x (pending m' w') ->
    In x (pending m w) \/
    ((exists topic payload qos retain, r = Enqueue topic payload qos retain) /\
     resp = Done (Resolved tt) /\
     col_id x = sequence_of m w + 1 /\
     Forall (fun y => col_id y < col_id x) (pending m w)).
Proof.
  intros Hwf Hs x Hx.
  destruct r;
    try (left; revert x Hx;
         apply (step_adds_no_row _ _ _ _ _ _ _ Hwf Hs); discriminate).
  pose proof Hs as Hs0. cbn [step] in Hs.
  destruct (addMessageToQueue e topic payload qos retain m w)
    as [[[[]|err] m1] w1] eqn:Ha; injection Hs as <- <- <-.
  - destruct (addMessageToQueue_resolved e
                {| msg_topic := topic; msg_payload := payload;
                   msg_qos := qos; msg_retain := retain |}
                m w m1 w1 Hwf Ha) as (-> & _ & Hp & _).
    rewrite Hp in Hx. apply in_app_or in Hx. destruct Hx as [Hx|[<-|[]]];
      [now left|right].
    split; [eauto|]. split; [reflexivity|]. split; [reflexivity|].
    cbn [new_row col_id]. unfold pending, sequence_of.
    apply wf_spec in Hwf. destruct Hwf as [Hfw _].
    destruct (files w (dbPath w m)) as [f|]; [|constructor].
    specialize (Hfw f eq_refl). apply wf_file_spec in Hfw.
    destruct Hfw as (_ & Hall & _).
    eapply Forall_impl; [|exact Hall]. simpl. intros; lia.
  - left. destruct (rejected_step _ _ _ _ _ _ _ Hwf Hs0 eq_refl) as [Hp _].
    now rewrite <- Hp.
Qed.

Lemma messages_never_mutated_witness :
  In (hd (new_row (fst (store_with [])) (snd (store_with []))
            (calm "t") (reading "sensors/t1" 42))
         (pending (fst (store_with three_readings))
            (snd (removeMessageFromQueue (calm "t") 2
                    (fst (store_with three_readings))
                    (snd (store_with three_readings))))))
     (pending (fst (store_with three_readings))
        (snd (store_with three_readings))).
Proof.
  assert (Hx : In (hd (new_row (fst (store_with [])) (snd (store_with []))
                         (calm "t") (reading "sensors/t1" 42))
                      (pending (fst (store_with three_readings))
                         (snd (removeMessageFromQueue (calm "t") 2
                                 (fst (store_with three_readings))
                                 (snd (store_with three_readings))))))
                  (pending (fst (store_with three_readings))
                     (snd (removeMessageFromQueue (calm "t") 2
                             (fst (store_with three_readings))
                             (snd (store_with three_readings)))))).
  { left. reflexivity. }
  destruct (messages_never_mutated (calm "t") (RemoveById 2)
              (fst (store_with three_readings))
              (snd (store_with three_readings))
              (Done (Resolved tt))
              (fst (store_with three_readings))
              (snd (removeMessageFromQueue (calm "t") 2
                      (fst (store_with three_readings))
                      (snd (store_with three_readings))))
              eq_refl eq_refl _ Hx) as [H|((t & p & q & rt & Hr) & _)];
    [exact H|discriminate].
Defined.

End Immutable.
